(** * TripletUI: the base class of src/index.mjs

    A shallow embedding of the class [TripletUI] (constructor, [set], [on],
    [publish], [render]) and of the part of the host it talks to: property
    access on JavaScript objects, the DOM calls [innerHTML], [appendChild],
    [querySelectorAll], [addEventListener], the template engine and the
    functions handed in by the caller.

    Modelling decisions.
    - The instance is the one object with an identity ([VThis]); its own
      properties are a [gmap string value] and it has a prototype slot.
    - Arrays and plain objects held by the instance are kept by value: the
      class creates them itself ([[]], [{}]) and no method hands them out. A
      caller who keeps a reference to one of them, or stores the same object
      in two fields, is outside the model. The instance can be stored in one
      of its own fields: where it stands for the listener map, the guard,
      the assignment and the push work on the instance itself.
    - DOM nodes are references into a store. The elements the HTML parser
      creates inside the container are addressed by their position in the
      container's markup, not by a reference of their own.
    - The template engine, the selector engine and the functions of the caller
      are parameters of the development. A call into a function of the caller
      is recorded in the log [calls]; such a function can inspect the world,
      but what it does to the instance or to the document is not followed.
    - Where the behaviour of the host is not covered (exotic prototypes,
      array-like objects in place of arrays, ...) the outcome is
      [Unmodelled]. A theorem about all the states of some shape says, with
      [settles], that the outcome there is covered. *)

From stdpp Require Import gmap strings list fin_maps.

Set Warnings "-register-all".

(** ** Values *)

Definition node := nat.

Inductive value : Type :=
| VUndefined
| VNull
| VBool (b : bool)
| VNum (n : Z)
| VStr (s : string)
| VFun (f : string)          (* a function of the caller, known by name *)
| VTemplate (raw : string)   (* handlebars.compile(raw) *)
| VMethod (m : string)       (* a method of the class, on TripletUI.prototype *)
| VNative (name : string)    (* a built-in function, known by name *)
| VNode (n : node)           (* a DOM node *)
| VThis                      (* the instance *)
| VClassPrototype            (* TripletUI.prototype *)
| VObjectPrototype           (* Object.prototype *)
| VArr (xs : list value)
| VObj (own : gmap string value) (proto : value).

Inductive exn : Type :=
| TypeError
| HierarchyRequestError      (* DOMException of appendChild *)
| SyntaxError                (* DOMException of querySelectorAll *)
| Thrown (x : value).        (* thrown by the template or by a caller's function *)

Inductive completion (A : Type) : Type :=
| Returns (a : A)
| Throws (x : value).
Arguments Returns {A} a.
Arguments Throws {A} x.

(** ** The document *)

(** [children]: the child nodes that are nodes of the store, in order.
    [innerHTML]: the markup last assigned; the element's content is its parse.
    [bound]: the handlers [render] installed on parsed elements, oldest first:
    position of the element, event type, and the binding the handler closes
    over. *)
Record element : Type := Element {
  children : list node;
  innerHTML : string;
  bound : list (nat * string * value)
}.

(** What a selector can see of a document: the tree and the markup, not
    the handlers. *)
Definition structure (d : gmap node element) : gmap node (list node * string) :=
  (fun e => (children e, innerHTML e)) <$> d.

(** ** The world: the instance, the document, the calls made so far *)

Record world : Type := World {
  this_own : gmap string value;
  this_proto : value;
  document : gmap node element;
  calls : list (string * list value)
}.

Inductive outcome (A : Type) : Type :=
| Return (a : A) (w : world)
| Throw (x : exn) (w : world)
| Unmodelled.
Arguments Return {A} a w.
Arguments Throw {A} x w.
Arguments Unmodelled {A}.

Definition js (A : Type) : Type := world -> outcome A.

Definition ret {A} (a : A) : js A := fun w => Return a w.
Definition throw {A} (x : exn) : js A := fun w => Throw x w.
Definition unmodelled {A} : js A := fun _ => Unmodelled.
Definition bind {A B} (c : js A) (k : A -> js B) : js B :=
  fun w => match c w with
           | Return a w' => k a w'
           | Throw x w' => Throw x w'
           | Unmodelled => Unmodelled
           end.

Notation "x <- c ;; k" := (bind c (fun x => k))
  (at level 100, c at next level, right associativity).
Notation "c ;;; k" := (bind c (fun _ => k))
  (at level 100, right associativity).

(** ** Property lookup along a prototype chain *)

Definition object_prototype_names : list string :=
  ["constructor"; "__defineGetter__"; "__defineSetter__"; "hasOwnProperty";
   "__lookupGetter__"; "__lookupSetter__"; "isPrototypeOf";
   "propertyIsEnumerable"; "toString"; "valueOf"; "__proto__";
   "toLocaleString"].

Definition class_method_names : list string := ["set"; "on"; "publish"; "render"].

Inductive slot : Type :=
| Data (v : value)     (* a writable data property holding v *)
| ProtoAccessor        (* the __proto__ accessor of Object.prototype *)
| Missing              (* no such property on the chain *)
| Unknown.             (* not covered *)

Definition find_object_prototype (k : string) : slot :=
  if decide (k = "__proto__") then ProtoAccessor
  else if decide (k ∈ object_prototype_names) then Data (VNative k)
  else Missing.

Definition find_class_prototype (k : string) : slot :=
  if decide (k ∈ class_method_names) then Data (VMethod k)
  else if decide (k = "constructor") then Data (VNative "TripletUI")
  else find_object_prototype k.

(** [find o k]: where a read of [o[k]] ends up. An array used as a prototype
    is only followed for the two names that neither it nor Array.prototype
    can hold. *)
Fixpoint find (o : value) (k : string) : slot :=
  match o with
  | VObj own proto =>
      match own !! k with
      | Some v => Data v
      | None => find proto k
      end
  | VObjectPrototype => find_object_prototype k
  | VClassPrototype => find_class_prototype k
  | VArr _ =>
      if decide (k = "__proto__") then ProtoAccessor
      else if decide (k = "hasOwnProperty") then Data (VNative k)
      else Unknown
  | VNull => Missing
  | _ => Unknown
  end.

Definition find_this (k : string) (w : world) : slot :=
  match this_own w !! k with
  | Some v => Data v
  | None => find (this_proto w) k
  end.

Definition is_object (v : value) : bool :=
  match v with
  | VUndefined | VNull | VBool _ | VNum _ | VStr _ => false
  | _ => true
  end.

Definition is_null (v : value) : bool :=
  match v with
  | VNull => true
  | _ => false
  end.

Fixpoint mentions_this (v : value) : bool :=
  match v with
  | VThis => true
  | VObj _ proto => mentions_this proto
  | _ => false
  end.

(** Conversion of a primitive to a string, as property key or DOMString. *)
Definition to_string (v : value) : js string :=
  match v with
  | VStr s => ret s
  | VUndefined => ret "undefined"
  | VNull => ret "null"
  | VBool true => ret "true"
  | VBool false => ret "false"
  | _ => unmodelled
  end.

Definition truthy (v : value) : bool :=
  match v with
  | VUndefined | VNull | VBool false | VStr EmptyString => false
  | VNum n => negb (n =? 0)%Z
  | _ => true
  end.

Definition with_own (own : gmap string value) (w : world) : world :=
  World own (this_proto w) (document w) (calls w).

Definition with_proto (proto : value) (w : world) : world :=
  World (this_own w) proto (document w) (calls w).

Definition with_document (d : gmap node element) (w : world) : world :=
  World (this_own w) (this_proto w) d (calls w).

Definition with_calls (log : list (string * list value)) (w : world) : world :=
  World (this_own w) (this_proto w) (document w) log.

(** ** The host *)

Section Host.

(** [run f this args w]: what the caller's function [f] does when called
    in the world [w], which it can inspect. *)
Variable run : string -> value -> list value -> world -> completion value.

(** [handlebars raw own proto]: the template compiled from [raw], evaluated
    against an object with own properties [own] and prototype [proto]. *)
Variable handlebars : string -> gmap string value -> value -> completion string.

(** [valid_selector selector]: [selector] parses as a selector. *)
Variable valid_selector : string -> bool.

(** [select s n selector]: the positions, in document order, of the
    elements in the content of [n] that match [selector] in a document of
    structure [s]. *)
Variable select : gmap node (list node * string) -> node -> string -> list nat.

(** [f.call(this, ...args)] *)
Definition call (f : value) (this : value) (args : list value) : js value :=
  match f with
  | VFun name =>
      fun w =>
        let w' := with_calls (calls w ++ [(name, args)]) w in
        match run name this args w with
        | Returns v => Return v w'
        | Throws x => Throw (Thrown x) w'
        end
  | VTemplate _ | VMethod _ | VNative _ | VNode _ => unmodelled
  | _ => throw TypeError
  end.

(** [this.k], read, for a field the class keeps on the instance. A field
    found further up the chain is shared with the prototype: not covered. *)
Definition this_get (k : string) : js value :=
  fun w => match find_this k w with
           | Data v => match this_own w !! k with
                       | Some _ => Return v w
                       | None => Unmodelled
                       end
           | Missing => Return VUndefined w
           | _ => Unmodelled
           end.

(** The object held in [this.k] was changed in place and is now [v]. *)
Definition this_put (k : string) (v : value) : js unit :=
  fun w => Return tt (with_own (<[k := v]> (this_own w)) w).

(** [this[k] = v] *)
Definition this_assign (k : string) (v : value) : js unit :=
  fun w =>
    match find_this k w with
    | Data _ | Missing => Return tt (with_own (<[k := v]> (this_own w)) w)
    | ProtoAccessor =>
        if is_object v || is_null v
        then if mentions_this v then Throw TypeError w
             else Return tt (with_proto v w)
        else Return tt w
    | Unknown => Unmodelled
    end.

(** [o.hasOwnProperty(k)] *)
Definition hasOwnProperty (o : value) (k : string) : js bool :=
  match o with
  | VUndefined | VNull => throw TypeError
  | VBool _ | VNum _ => ret false
  | VObj own _ =>
      match find o "hasOwnProperty" with
      | Data (VNative name) =>
          if decide (name = "hasOwnProperty")
          then ret (bool_decide (is_Some (own !! k)))
          else unmodelled
      | Data f => r <- call f o [VStr k] ;; ret (truthy r)
      | Missing => throw TypeError
      | _ => unmodelled
      end
  | VThis =>
      fun w =>
        match find_this "hasOwnProperty" w with
        | Data (VNative name) =>
            if decide (name = "hasOwnProperty")
            then Return (bool_decide (is_Some (this_own w !! k))) w
            else Unmodelled
        | Data f => (r <- call f VThis [VStr k] ;; ret (truthy r)) w
        | Missing => Throw TypeError w
        | _ => Unmodelled
        end
  | _ => unmodelled
  end.

(** [o[k] = v] on an object held by value; the result is the object after
    the assignment. When [o] is the instance itself, the assignment is to
    the instance and the result is the instance; an assignment that replaces
    the field [o] was read from is not covered. *)
Definition assign (o : value) (k : string) (v : value) : js value :=
  match o with
  | VUndefined | VNull | VBool _ | VNum _ | VStr _ => throw TypeError
  | VObj own proto =>
      match find o k with
      | Data _ | Missing => ret (VObj (<[k := v]> own) proto)
      | ProtoAccessor =>
          if is_object v || is_null v then ret (VObj own v) else ret o
      | Unknown => unmodelled
      end
  | VThis =>
      if decide (k = "eventListeners") then unmodelled
      else this_assign k v ;;; ret VThis
  | _ => unmodelled
  end.

(** [arr.push(x)] on an array held by value; the result is the array after
    the call. *)
Definition push (arr : value) (x : value) : js value :=
  match arr with
  | VArr xs => ret (VArr (xs ++ [x]))
  | VUndefined | VNull | VBool _ | VNum _ | VStr _ => throw TypeError
  | _ => unmodelled
  end.

(** [o[k].push(x)] on an object held by value; the result is the object
    after the call. The array is the own property [k], or the prototype of
    [o] when [k] reads through the __proto__ accessor. When [o] is the
    instance itself, the array is a property of the instance, and changes
    there. *)
Definition push_at (o : value) (k : string) (x : value) : js value :=
  match o with
  | VUndefined | VNull => throw TypeError
  | VObj own proto =>
      match own !! k with
      | Some arr => arr' <- push arr x ;; ret (VObj (<[k := arr']> own) proto)
      | None =>
          match find proto k with
          | ProtoAccessor => arr' <- push proto x ;; ret (VObj own arr')
          | Missing => throw TypeError
          | _ => unmodelled
          end
      end
  | VThis =>
      fun w =>
        match this_own w !! k with
        | Some arr => (arr' <- push arr x ;; this_put k arr' ;;; ret VThis) w
        | None =>
            match find (this_proto w) k with
            | Missing => Throw TypeError w
            | _ => Unmodelled
            end
        end
  | _ => unmodelled
  end.

(** [o[k]], read. *)
Definition get (o : value) (k : string) : js value :=
  match o with
  | VUndefined | VNull => throw TypeError
  | VObj own proto =>
      match find o k with
      | Data v => ret v
      | ProtoAccessor => ret proto
      | Missing => ret VUndefined
      | Unknown => unmodelled
      end
  | VThis =>
      fun w =>
        match find_this k w with
        | Data v => Return v w
        | ProtoAccessor => Return (this_proto w) w
        | Missing => Return VUndefined w
        | Unknown => Unmodelled
        end
  | _ => unmodelled
  end.

(** [o[i]] for an index [i], read. *)
Definition index (o : value) (i : nat) : js value :=
  match o with
  | VUndefined | VNull => throw TypeError
  | VArr xs => ret (default VUndefined (xs !! i))
  | VBool _ | VNum _ => ret VUndefined
  | _ => unmodelled
  end.

(** [xs.forEach(body)] on the elements of an array. *)
Fixpoint each {A} (body : A -> js unit) (xs : list A) : js unit :=
  match xs with
  | [] => ret tt
  | x :: rest => body x ;;; each body rest
  end.

(** [arr.forEach(body)] *)
Definition forEach (arr : value) (body : value -> js unit) : js unit :=
  match arr with
  | VArr xs => each body xs
  | VUndefined | VNull | VBool _ | VNum _ | VStr _ => throw TypeError
  | _ => unmodelled
  end.

(** *** The DOM calls *)

(** [descends fuel d a b]: [b] is [a] or a descendant of [a]. *)
Fixpoint descends (fuel : nat) (d : gmap node element) (a b : node) : bool :=
  bool_decide (a = b) ||
  match fuel with
  | O => false
  | S fuel' =>
      match d !! a with
      | Some e => existsb (fun k => descends fuel' d k b) (children e)
      | None => false
      end
  end.

Definition without_child (c : node) (e : element) : element :=
  Element (filter (fun k => k ≠ c) (children e)) (innerHTML e) (bound e).

Definition with_child (c : node) (e : element) : element :=
  Element (children e ++ [c]) (innerHTML e) (bound e).

(** [o.innerHTML = markup] for the value [o] of [this.subdom]: on a node, the
    content and everything in it is replaced by the parse of [markup]; on a
    plain object it is an ordinary assignment, to the object the field
    holds. *)
Definition set_innerHTML (o : value) (markup : string) : js unit :=
  match o with
  | VNode n =>
      fun w => match document w !! n with
               | Some _ =>
                   Return tt (with_document (<[n := Element [] markup []]> (document w)) w)
               | None => Unmodelled
               end
  | VObj _ _ => o' <- assign o "innerHTML" (VStr markup) ;; this_put "subdom" o'
  | VUndefined | VNull | VBool _ | VNum _ | VStr _ => throw TypeError
  | _ => unmodelled
  end.

(** [parent.appendChild(child)]: a node that has a parent is taken out of it
    first; a node cannot be put under itself or under one of its
    descendants. *)
Definition appendChild (parent : node) (child : value) : js unit :=
  fun w =>
    let d := document w in
    match d !! parent with
    | None => Unmodelled
    | Some _ =>
        match child with
        | VNode c =>
            match d !! c with
            | None => Unmodelled
            | Some _ =>
                if descends (size d) d c parent
                then Throw HierarchyRequestError w
                else Return tt (with_document
                                  (alter (with_child c) parent (without_child c <$> d)) w)
            end
        | _ => Throw TypeError w
        end
    end.

(** [o.querySelectorAll(arg)]; the argument is evaluated after the method
    has been looked up on [o]. *)
Definition querySelectorAll (o : value) (arg : js value) : js (list nat) :=
  match o with
  | VNode n =>
      v <- arg ;;
      selector <- to_string v ;;
      fun w => match document w !! n with
               | Some (Element [] _ _) =>
                   if valid_selector selector
                   then Return (select (structure (document w)) n selector) w
                   else Throw SyntaxError w
               | _ => Unmodelled
               end
  | VUndefined | VNull => throw TypeError
  | _ => unmodelled
  end.

(** [domNode.addEventListener(type, handler)] for the element at position
    [pos] of the content of [n]; the handler is the closure [render] builds
    over [eventBinding]. *)
Definition addEventListener (n : node) (pos : nat) (type : value)
    (eventBinding : value) : js unit :=
  name <- to_string type ;;
  fun w => match document w !! n with
           | Some e =>
               Return tt (with_document
                 (<[n := Element (children e) (innerHTML e)
                                 (bound e ++ [(pos, name, eventBinding)])]>
                    (document w)) w)
           | None => Unmodelled
           end.

(** [f(this)] for the compiled template [f], called as a method of the
    instance. *)
Definition call_template (f : value) : js string :=
  match f with
  | VTemplate raw =>
      fun w => match handlebars raw (this_own w) (this_proto w) with
               | Returns markup => Return markup w
               | Throws x => Throw (Thrown x) w
               end
  | VFun _ =>
      r <- call f VThis [VThis] ;;
      match r with
      | VStr markup => ret markup
      | _ => unmodelled
      end
  | VMethod _ | VNative _ | VNode _ => unmodelled
  | _ => throw TypeError
  end.

(** ** The class *)

(** [new TripletUI(RAW_TEMPLATE)] in a document [d]; the container is a new
    node, in no other node. *)
Definition constructor (RAW_TEMPLATE : string) (d : gmap node element) : world :=
  let subdom := fresh (dom d) in
  World (<["compiledTemplate" := VTemplate RAW_TEMPLATE]>
          (<["eventListeners" := VObj ∅ VObjectPrototype]>
            (<["eventInterfaces" := VArr []]>
              (<["subdom" := VNode subdom]> ∅))))
        VClassPrototype
        (<[subdom := Element [] EmptyString []]> d)
        [].

(** [set(key, value) { this[key] = value; return this; }] *)
Definition set (key : string) (v : value) : js value :=
  this_assign key v ;;;
  ret VThis.

(** The guard both [on] and [publish] start with:
    [if (!this.eventListeners.hasOwnProperty(tag)) this.eventListeners[tag] = []]. *)
Definition ensure_tag (tag : string) : js unit :=
  listeners <- this_get "eventListeners" ;;
  has <- hasOwnProperty listeners tag ;;
  if has then ret tt
  else
    listeners <- this_get "eventListeners" ;;
    listeners' <- assign listeners tag (VArr []) ;;
    this_put "eventListeners" listeners'.

(** [on(tag, listener)]: the guard, then
    [this.eventListeners[tag].push(listener); return this;]. *)
Definition on (tag : string) (listener : value) : js value :=
  ensure_tag tag ;;;
  listeners <- this_get "eventListeners" ;;
  listeners' <- push_at listeners tag listener ;;
  this_put "eventListeners" listeners' ;;;
  ret VThis.

(** [publish(tag, event)]: the guard, then
    [this.eventListeners[tag].forEach(listener => listener(event));]; the
    method has no return statement. *)
Definition publish (tag : string) (event : value) : js value :=
  ensure_tag tag ;;;
  listeners <- this_get "eventListeners" ;;
  registered <- get listeners tag ;;
  forEach registered (fun listener => call listener VUndefined [event] ;;; ret tt) ;;;
  ret VUndefined.

(** [this.method(...args)], a call through the instance: [body] is what the
    class method of that name does with these arguments; an own property of
    that name takes its place. *)
Definition invoke (method : string) (args : list value) (body : js value) : js value :=
  fun w =>
    match find_this method w with
    | Data (VMethod m) => if decide (m = method) then body w else Unmodelled
    | Data f => call f VThis args w
    | Missing => Throw TypeError w
    | _ => Unmodelled
    end.

(** The handler [render] attaches:
    [function (event) { this.publish(eventBinding[2], event); }.bind(this)]. *)
Definition handler (eventBinding : value) (event : value) : js value :=
  tag <- index eventBinding 2 ;;
  invoke "publish" [tag; event]
    (name <- to_string tag ;; publish name event) ;;;
  ret VUndefined.

(** [render(parent)]:
    [this.subdom.innerHTML = this.compiledTemplate(this);]
    [parent.appendChild(this.subdom);]
    [this.eventInterfaces.forEach(eventBinding => {]
    [  this.subdom.querySelectorAll(eventBinding[0]).forEach(domNode => {]
    [    domNode.addEventListener(eventBinding[1], handler); }); });]
    [return this;]
    In the first statement the target [this.subdom] is read before the right
    hand side is evaluated, and written after. *)
Definition render (parent : node) : js value :=
  subdom <- this_get "subdom" ;;
  compiledTemplate <- this_get "compiledTemplate" ;;
  markup <- call_template compiledTemplate ;;
  set_innerHTML subdom markup ;;;
  subdom <- this_get "subdom" ;;
  appendChild parent subdom ;;;
  eventInterfaces <- this_get "eventInterfaces" ;;
  forEach eventInterfaces (fun eventBinding =>
    subdom <- this_get "subdom" ;;
    matches <- querySelectorAll subdom (index eventBinding 0) ;;
    match subdom with
    | VNode n =>
        each (fun domNode =>
                type <- index eventBinding 1 ;;
                addEventListener n domNode type eventBinding) matches
    | _ => unmodelled
    end) ;;;
  ret VThis.

(** A native event of type [type] reaching the element at position [pos] of
    the content of [n]: the handlers bound there for [type] run in the order
    they were added; what one of them throws is reported by the host and does
    not stop the others. *)
Fixpoint run_handlers (hs : list (nat * string * value)) (pos : nat)
    (type : string) (event : value) : js unit :=
  match hs with
  | [] => ret tt
  | (pos', type', eventBinding) :: rest =>
      if decide (pos' = pos ∧ type' = type)
      then fun w => match handler eventBinding event w with
                    | Return _ w' | Throw _ w' => run_handlers rest pos type event w'
                    | Unmodelled => Unmodelled
                    end
      else run_handlers rest pos type event
  end.

Definition dispatch (n : node) (pos : nat) (type : string) (event : value) : js unit :=
  fun w => match document w !! n with
           | Some e => run_handlers (bound e) pos type event w
           | None => Unmodelled
           end.

End Host.

(** ** A concrete host, for closed instances of the theorems *)

Module Sample.

(** The caller's function "boom" throws the string "boom"; the others
    return undefined. *)
Definition run (f : string) (this : value) (args : list value) (w : world)
    : completion value :=
  if decide (f = "boom") then Throws (VStr "boom") else Returns VUndefined.

(** A template that renders its source followed by the property "name". *)
Definition handlebars (raw : string) (own : gmap string value) (proto : value)
    : completion string :=
  Returns (String.append raw
             match own !! "name" with
             | Some (VStr s) => s
             | _ => EmptyString
             end).

(** Every selector but "[" is valid; a selector matches the first
    element. *)
Definition valid_selector (selector : string) : bool :=
  negb (bool_decide (selector = "[")).

Definition select (s : gmap node (list node * string)) (n : node) (selector : string)
    : list nat :=
  [0].

(** A document of two nodes, neither inside the other. *)
Definition page : gmap node element :=
  <[1 := Element [] EmptyString []]> (<[0 := Element [] EmptyString []]> ∅).

Definition fresh_instance : world := constructor "Hello " page.

End Sample.

(** [listeners_of w tag]: the array registered under the own key [tag] of
    the listener map, when there is one. *)
Definition listeners_of (w : world) (tag : string) : option value :=
  match this_own w !! "eventListeners" with
  | Some (VObj own _) => own !! tag
  | _ => None
  end.

(** The listener map is a plain object that inherits hasOwnProperty from
    Object.prototype, as the constructor leaves it. *)
Definition plain_listeners (w : world) : Prop :=
  exists own, this_own w !! "eventListeners" = Some (VObj own VObjectPrototype)
              /\ own !! "hasOwnProperty" = None.

(** The container of the instance, when the field holds a node. *)
Definition container (w : world) : option node :=
  match this_own w !! "subdom" with
  | Some (VNode n) => Some n
  | _ => None
  end.

Definition children_of (w : world) (n : node) : list node :=
  match document w !! n with
  | Some e => children e
  | None => []
  end.

Definition markup_of (w : world) (n : node) : option string :=
  innerHTML <$> document w !! n.

(** The outcome is covered, and the world it ends in, by a return or by a
    throw, satisfies [P]. *)
Definition settles {A} (o : outcome A) (P : world -> Prop) : Prop :=
  match o with
  | Return _ w | Throw _ w => P w
  | Unmodelled => False
  end.

(** Running a list of calls one after the other, stopping at the first that
    does not return. *)
Fixpoint sequence (cs : list (js value)) : js unit :=
  match cs with
  | [] => ret tt
  | c :: rest => c ;;; sequence rest
  end.

Definition invocation (event : value) (f : string) : string * list value :=
  (f, [event]).

Definition builtin_hasOwnProperty (m : value) : Prop :=
  find m "hasOwnProperty" = Data (VNative "hasOwnProperty").

(** A declared binding [(selector, domEventName, tag)] as the array the
    class reads it from. *)
Definition binding_value (b : string * string * string) : value :=
  VArr [VStr b.1.1; VStr b.1.2; VStr b.2].

Section Declared.

Variable select : gmap node (list node * string) -> node -> string -> list nat.

(** What the bindings ask for, in the words of the specification: for each
    binding in declaration order, for each element of the content of the
    container [c] that matches its selector, one handler for its event
    name. *)
Definition attached (s : gmap node (list node * string)) (c : node)
    (bindings : list (string * string * string)) : list (nat * string * value) :=
  flat_map (fun b => (fun pos => (pos, b.1.2, binding_value b))
                       <$> select s c b.1.1)
           bindings.

End Declared.

(** The document after a render into [parent] of the container [c] with
    content [markup] and handlers [hs]. *)
Definition rendered (c parent : node) (markup : string)
    (hs : list (nat * string * value)) (d : gmap node element) : gmap node element :=
  <[c := Element [] markup hs]> (alter (with_child c) parent (without_child c <$> d)).

(** Every child listed in the document is a node of the document. *)
Definition well_formed (d : gmap node element) : Prop :=
  forall n e k, d !! n = Some e -> k ∈ children e -> is_Some (d !! k).

(** The properties after the assignments [sets], oldest first. *)
Definition assigned (sets : list (string * value)) (own : gmap string value)
    : gmap string value :=
  foldl (fun m kv => <[kv.1 := kv.2]> m) own sets.

(** The value last assigned to [k] in [sets]. *)
Definition latest (sets : list (string * value)) (k : string) : option value :=
  snd <$> last (filter (fun kv => kv.1 = k) sets).

(** [this[k]], read. *)
Definition reads (w : world) (k : string) : option value :=
  match find_this k w with
  | Data v => Some v
  | ProtoAccessor => Some (this_proto w)
  | Missing => Some VUndefined
  | Unknown => None
  end.

(** The own fields [render] works with, and the prototype accessor. *)
Definition reserved_for_render : list string :=
  ["subdom"; "compiledTemplate"; "eventInterfaces"; "__proto__"].

(** A method call on the value an earlier call returned:
    [r.method(...args)]. *)
Definition then_call {A} (r : value) (c : js A) : js A :=
  match r with
  | VThis => c
  | VUndefined | VNull => throw TypeError
  | _ => unmodelled
  end.

(** What the selectors of a render see: the container with its new
    content, in its new parent. *)
Definition seen (c parent : node) (markup : string) (d : gmap node element)
    : gmap node (list node * string) :=
  structure (rendered c parent markup [] d).

Module Scenario.

(** The scenario of the specification: one binding
    [(".item", "click", "itemClicked")] on a new instance. *)
Definition item_binding : string * string * string :=
  (".item", "click", "itemClicked").

Definition configured : world :=
  with_own (<["eventInterfaces" := VArr [binding_value item_binding]]>
              (this_own Sample.fresh_instance))
           Sample.fresh_instance.

(** Three listeners under the tag "t", the second of which throws. *)
Definition three_listeners : gmap string value :=
  <["t" := VArr [VFun "f"; VFun "boom"; VFun "g"]]> ∅.

Definition subscribed : world :=
  with_own (<["eventListeners" := VObj three_listeners VObjectPrototype]>
              (this_own Sample.fresh_instance))
           Sample.fresh_instance.

End Scenario.
(** ** Further observations *)

(** A value that cannot be called: calling it throws a TypeError. *)
Definition not_a_function (v : value) : bool :=
  match v with
  | VFun _ | VTemplate _ | VMethod _ | VNative _ | VNode _ => false
  | _ => true
  end.

(** The functions registered under [tag] by the registrations [regs]
    (tag, function), oldest first. *)
Definition registered_under (tag : string) (regs : list (string * string))
    : list string :=
  snd <$> filter (fun r => r.1 = tag) regs.

(** The own keys of the listener map after the registrations [regs] on a
    map that held [own]. *)
Definition listener_table (regs : list (string * string)) (own : gmap string value)
    : gmap string value :=
  foldl (fun m r =>
           <[r.1 := VArr (match m !! r.1 with
                          | Some (VArr xs) => xs
                          | _ => []
                          end ++ [VFun r.2])]> m)
        own regs.

(** Every entry of a listener map is an array. *)
Definition arrays_only (own : gmap string value) : Prop :=
  forall t v, own !! t = Some v -> exists xs, v = VArr xs.


(** A listener whose call is followed: a function of the caller, or a value
    that is no function. *)
Definition followed (v : value) : bool :=
  match v with
  | VTemplate _ | VMethod _ | VNative _ | VNode _ => false
  | _ => true
  end.

(** Every entry of a listener map is an array of such listeners. *)
Definition listener_arrays (own : gmap string value) : Prop :=
  forall t v, own !! t = Some v ->
              exists xs, v = VArr xs /\ Forall (fun x => followed x = true) xs.

(** [w'] differs from [w] in the field [eventListeners] and in the call log
    at most. *)
Definition only_listeners (w w' : world) : Prop :=
  this_proto w' = this_proto w
  /\ document w' = document w
  /\ forall k, k ≠ "eventListeners" -> this_own w' !! k = this_own w !! k.

(** The own fields [render] works with, the prototype accessor, and the two
    methods a caller goes through to assign and to render. *)
Definition reserved_for_set_and_render : list string :=
  reserved_for_render ++ ["set"; "render"].

Module Strict.

(** A template that throws when the property "name" is not a string. *)
Definition handlebars (raw : string) (own : gmap string value) (proto : value)
    : completion string :=
  match own !! "name" with
  | Some (VStr s) => Returns (String.append raw s)
  | _ => Throws (VStr "name is missing")
  end.

End Strict.

Module Wired.

(** The scenario after [on("itemClicked", fn)] and a render: one handler on
    the first element of the container (node 2), one listener. *)
Definition listeners : gmap string value :=
  <["itemClicked" := VArr [VFun "fn"]]> ∅.

Definition content : element :=
  Element [] "Hello " [(0, "click"%string, binding_value Scenario.item_binding)].

Definition clicked : world :=
  with_document (<[2 := content]> (document Scenario.configured))
    (with_own (<["eventListeners" := VObj listeners VObjectPrototype]>
                 (this_own Scenario.configured))
              Scenario.configured).

(** The scenario with a second binding whose selector does not parse,
    between two that do. *)
Definition broken_binding : string * string * string := ("[", "click", "t").

Definition misconfigured : world :=
  with_own (<["eventInterfaces" :=
               VArr (binding_value <$> [Scenario.item_binding; broken_binding;
                                        Scenario.item_binding])]>
              (this_own Sample.fresh_instance))
           Sample.fresh_instance.

End Wired.

(** * Properties *)

(** ** Sequencing *)

Lemma bind_Return {A B} (c : js A) (k : A -> js B) w a w' :
  c w = Return a w' -> bind c k w = k a w'.
Proof. intros H. unfold bind. by rewrite H. Qed.

Lemma bind_Throw {A B} (c : js A) (k : A -> js B) w x w' :
  c w = Throw x w' -> bind c k w = Throw x w'.
Proof. intros H. unfold bind. by rewrite H. Qed.

Lemma bind_Unmodelled {A B} (c : js A) (k : A -> js B) w :
  c w = Unmodelled -> bind c k w = Unmodelled.
Proof. intros H. unfold bind. by rewrite H. Qed.

(** ** Reading and writing properties *)

Lemma with_own_same w : with_own (this_own w) w = w.
Proof. by destruct w. Qed.

Lemma find_object_prototype_hasOwnProperty :
  find_object_prototype "hasOwnProperty" = Data (VNative "hasOwnProperty").
Proof. reflexivity. Qed.

Lemma find_object_prototype_writable k :
  k ≠ "__proto__" ->
  find_object_prototype k = Missing \/ find_object_prototype k = Data (VNative k).
Proof.
  intros Hk. unfold find_object_prototype.
  destruct (decide (k = "__proto__")); [done|].
  destruct (decide (k ∈ object_prototype_names)); auto.
Qed.

Lemma find_class_prototype_writable k :
  k ≠ "__proto__" ->
  find_class_prototype k = Missing \/ exists v, find_class_prototype k = Data v.
Proof.
  intros Hk. unfold find_class_prototype.
  destruct (decide (k ∈ class_method_names)); [eauto|].
  destruct (decide (k = "constructor")); [eauto|].
  destruct (find_object_prototype_writable k Hk) as [->| ->]; eauto.
Qed.

Lemma this_get_own k v w :
  this_own w !! k = Some v -> this_get k w = Return v w.
Proof. intros H. unfold this_get, find_this. by rewrite H. Qed.

Section Listeners.

Variable run : string -> value -> list value -> world -> completion value.

Lemma hasOwnProperty_plain own k w :
  own !! "hasOwnProperty" = None ->
  hasOwnProperty run (VObj own VObjectPrototype) k w
  = Return (bool_decide (is_Some (own !! k))) w.
Proof. intros H. unfold hasOwnProperty. simpl. by rewrite H. Qed.

Lemma assign_plain own k v w :
  k ≠ "__proto__" ->
  assign (VObj own VObjectPrototype) k v w
  = Return (VObj (<[k := v]> own) VObjectPrototype) w.
Proof.
  intros Hk. unfold assign. simpl.
  destruct (own !! k); [done|].
  by destruct (find_object_prototype_writable k Hk) as [->| ->].
Qed.

(** The guard on a plain listener map: the key is created, empty, unless it
    is there already. *)
Lemma ensure_tag_plain own tag w :
  this_own w !! "eventListeners" = Some (VObj own VObjectPrototype) ->
  own !! "hasOwnProperty" = None ->
  tag ≠ "__proto__" ->
  ensure_tag run tag w
  = Return tt
      (match own !! tag with
       | Some _ => w
       | None => with_own (<["eventListeners" :=
                              VObj (<[tag := VArr []]> own) VObjectPrototype]>
                             (this_own w)) w
       end).
Proof.
  intros Hm Hh Ht. unfold ensure_tag, bind.
  rewrite (this_get_own _ _ _ Hm), hasOwnProperty_plain by done.
  destruct (own !! tag) as [arr|] eqn:E.
  - rewrite bool_decide_eq_true_2 by eauto. done.
  - rewrite bool_decide_eq_false_2 by (intros [? ?]; done).
    rewrite (this_get_own _ _ _ Hm), assign_plain by done. done.
Qed.


(** [on] on a plain listener map appends to the array under the tag, which
    starts empty. *)
Lemma on_plain own tag listener xs w :
  this_own w !! "eventListeners" = Some (VObj own VObjectPrototype) ->
  own !! "hasOwnProperty" = None ->
  tag ≠ "__proto__" ->
  own !! tag = Some (VArr xs) \/ (own !! tag = None /\ xs = []) ->
  on run tag listener w
  = Return VThis
      (with_own (<["eventListeners" :=
                    VObj (<[tag := VArr (xs ++ [listener])]> own) VObjectPrototype]>
                   (this_own w)) w).
Proof.
  intros Hm Hh Ht Hx. unfold on, bind at 1.
  rewrite (ensure_tag_plain _ _ _ Hm Hh Ht).
  destruct Hx as [Hx | [Hx ->]]; rewrite Hx.
  - unfold bind. rewrite (this_get_own _ _ _ Hm).
    unfold push_at. rewrite Hx. done.
  - unfold bind. erewrite this_get_own by apply lookup_insert_eq.
    unfold push_at. rewrite lookup_insert_eq. simpl.
    unfold this_put, ret, with_own. simpl. by rewrite !insert_insert_eq.
Qed.

Lemma with_calls_twice l l' w : with_calls l' (with_calls l w) = with_calls l' w.
Proof. done. Qed.

(** The loop of [publish] over listeners that all return. *)
Lemma each_listener_returns fs event w :
  (forall f w', f ∈ fs -> exists v, run f VUndefined [event] w' = Returns v) ->
  each (fun listener => call run listener VUndefined [event] ;;; ret tt)
       (VFun <$> fs) w
  = Return tt (with_calls (calls w ++ (invocation event <$> fs)) w).
Proof.
  revert w. induction fs as [|f fs IH]; intros w Hr.
  - simpl. rewrite app_nil_r. by destruct w.
  - rewrite fmap_cons. simpl. unfold bind at 1. unfold bind at 1. unfold call.
    destruct (Hr f w) as [v Hv]; [left|]. rewrite Hv. unfold ret at 1.
    rewrite IH by (intros g w' Hg; apply Hr; by right).
    simpl. by rewrite <- app_assoc.
Qed.

(** The loop of [publish] when a listener throws: the ones before it have
    been called, it has been called, the ones after it have not. *)
Lemma each_listener_throws pre f post x event w :
  (forall g w', g ∈ pre -> exists v, run g VUndefined [event] w' = Returns v) ->
  run f VUndefined [event] (with_calls (calls w ++ (invocation event <$> pre)) w)
    = Throws x ->
  each (fun listener => call run listener VUndefined [event] ;;; ret tt)
       ((VFun <$> pre) ++ VFun f :: post) w
  = Throw (Thrown x)
      (with_calls (calls w ++ (invocation event <$> pre) ++ [invocation event f]) w).
Proof.
  revert w. induction pre as [|g pre IH]; intros w Hr Hf.
  - simpl in *. rewrite app_nil_r in Hf.
    replace (with_calls (calls w) w) with w in Hf by (by destruct w).
    unfold bind at 1. unfold bind at 1. unfold call. by rewrite Hf.
  - rewrite fmap_cons. simpl. unfold bind at 1. unfold bind at 1. unfold call.
    destruct (Hr g w) as [v Hv]; [left|]. rewrite Hv. unfold ret at 1.
    rewrite IH.
    + simpl. by rewrite <- app_assoc.
    + intros h w' Hh. apply Hr. by right.
    + simpl. rewrite fmap_cons in Hf. by rewrite <- app_assoc.
Qed.

Lemma ensure_tag_present own proto tag arr w :
  this_own w !! "eventListeners" = Some (VObj own proto) ->
  builtin_hasOwnProperty (VObj own proto) ->
  own !! tag = Some arr ->
  ensure_tag run tag w = Return tt w.
Proof.
  intros Hm Hb Ht. unfold ensure_tag, bind.
  rewrite (this_get_own _ _ _ Hm). unfold hasOwnProperty. rewrite Hb. simpl.
  rewrite bool_decide_eq_true_2 by (rewrite Ht; eauto). done.
Qed.

Lemma get_own own proto tag arr w :
  own !! tag = Some arr -> get (VObj own proto) tag w = Return arr w.
Proof. intros H. unfold get. simpl. by rewrite H. Qed.

(** [publish] calls the registered listeners once each, first to last. *)
Lemma publish_registered own proto tag fs event w :
  this_own w !! "eventListeners" = Some (VObj own proto) ->
  builtin_hasOwnProperty (VObj own proto) ->
  own !! tag = Some (VArr (VFun <$> fs)) ->
  (forall f w', f ∈ fs -> exists v, run f VUndefined [event] w' = Returns v) ->
  publish run tag event w
  = Return VUndefined (with_calls (calls w ++ (invocation event <$> fs)) w).
Proof.
  intros Hm Hb Ht Hr. unfold publish.
  erewrite bind_Return by (by eapply ensure_tag_present).
  erewrite bind_Return by (by apply this_get_own).
  erewrite bind_Return by (by apply get_own).
  erewrite bind_Return by (by apply each_listener_returns).
  done.
Qed.

End Listeners.

(** ** The DOM calls *)

Section Rendering.

Variable run : string -> value -> list value -> world -> completion value.
Variable handlebars : string -> gmap string value -> value -> completion string.
Variable valid_selector : string -> bool.
Variable select : gmap node (list node * string) -> node -> string -> list nat.

Lemma descends_leaf fuel d a b e :
  d !! a = Some e -> children e = [] ->
  descends fuel d a b = bool_decide (a = b).
Proof.
  intros Ha He. destruct fuel; simpl.
  - by rewrite orb_false_r.
  - rewrite Ha, He. simpl. by rewrite orb_false_r.
Qed.

Lemma set_innerHTML_node n markup e w :
  document w !! n = Some e ->
  set_innerHTML (VNode n) markup w
  = Return tt (with_document (<[n := Element [] markup []]> (document w)) w).
Proof. intros H. unfold set_innerHTML. by rewrite H. Qed.

Lemma appendChild_leaf parent c e markup hs w :
  document w !! parent = Some e ->
  document w !! c = Some (Element [] markup hs) ->
  parent ≠ c ->
  appendChild parent (VNode c) w
  = Return tt (with_document
                 (alter (with_child c) parent (without_child c <$> document w)) w).
Proof.
  intros Hp Hc Hne. unfold appendChild. rewrite Hp, Hc.
  erewrite descends_leaf by done.
  by rewrite bool_decide_eq_false_2 by done.
Qed.

Lemma addEventListener_string n pos type b e w :
  document w !! n = Some e ->
  addEventListener n pos (VStr type) b w
  = Return tt (with_document
                 (<[n := Element (children e) (innerHTML e) (bound e ++ [(pos, type, b)])]>
                    (document w)) w).
Proof.
  intros H. unfold addEventListener, bind, to_string, ret. by rewrite H.
Qed.

Lemma structure_insert_bound d n e hs :
  d !! n = Some e ->
  structure (<[n := Element (children e) (innerHTML e) hs]> d) = structure d.
Proof.
  intros H. unfold structure. rewrite fmap_insert. cbn [children innerHTML].
  apply insert_id. by rewrite lookup_fmap, H.
Qed.

Lemma each_cons {A} (body : A -> js unit) x xs :
  each body (x :: xs) = (body x ;;; each body xs).
Proof. reflexivity. Qed.

(** The inner loop of [render]: one handler per matching element. *)
Lemma each_match n b matches markup hs w :
  document w !! n = Some (Element [] markup hs) ->
  each (fun domNode =>
          type <- index (binding_value b) 1 ;;
          addEventListener n domNode type (binding_value b)) matches w
  = Return tt (with_document
      (<[n := Element [] markup
               (hs ++ ((fun pos => (pos, b.1.2, binding_value b)) <$> matches))]>
         (document w)) w).
Proof.
  revert hs w. induction matches as [|pos matches IH]; intros hs w Hn.
  - simpl. rewrite app_nil_r, insert_id by done. by destruct w.
  - simpl. erewrite bind_Return; last first.
    { erewrite bind_Return by reflexivity. simpl.
      by erewrite addEventListener_string. }
    simpl. erewrite IH by apply lookup_insert_eq.
    unfold with_document. simpl. by rewrite insert_insert_eq, <- app_assoc.
Qed.

Lemma querySelectorAll_valid n b markup hs w :
  document w !! n = Some (Element [] markup hs) ->
  valid_selector b.1.1 = true ->
  querySelectorAll valid_selector select (VNode n) (index (binding_value b) 0) w
  = Return (select (structure (document w)) n b.1.1) w.
Proof.
  intros Hn Hv. unfold querySelectorAll.
  erewrite bind_Return by reflexivity.
  erewrite bind_Return by reflexivity.
  rewrite Hn. cbn [default]. by rewrite Hv.
Qed.

Lemma querySelectorAll_invalid n b markup hs w :
  document w !! n = Some (Element [] markup hs) ->
  valid_selector b.1.1 = false ->
  querySelectorAll valid_selector select (VNode n) (index (binding_value b) 0) w
  = Throw SyntaxError w.
Proof.
  intros Hn Hv. unfold querySelectorAll.
  erewrite bind_Return by reflexivity.
  erewrite bind_Return by reflexivity.
  rewrite Hn. cbn [default]. by rewrite Hv.
Qed.

(** One turn of the outer loop of [render]. *)
Lemma bind_one n b markup hs w :
  this_own w !! "subdom" = Some (VNode n) ->
  document w !! n = Some (Element [] markup hs) ->
  valid_selector b.1.1 = true ->
  (subdom <- this_get "subdom" ;;
   matches <- querySelectorAll valid_selector select subdom
                (index (binding_value b) 0) ;;
   match subdom with
   | VNode n =>
       each (fun domNode =>
               type <- index (binding_value b) 1 ;;
               addEventListener n domNode type (binding_value b)) matches
   | _ => unmodelled
   end) w
  = Return tt (with_document
      (<[n := Element [] markup
               (hs ++ attached select (structure (document w)) n [b])]>
         (document w)) w).
Proof.
  intros Hs Hn Hv.
  erewrite bind_Return by (by apply this_get_own).
  erewrite bind_Return by (by eapply querySelectorAll_valid).
  erewrite each_match by done.
  unfold attached. cbn [flat_map]. by rewrite app_nil_r.
Qed.

Lemma attached_cons s c b bindings :
  attached select s c (b :: bindings)
  = attached select s c [b] ++ attached select s c bindings.
Proof. unfold attached. cbn [flat_map]. by rewrite app_nil_r. Qed.

(** The outer loop of [render]. *)
Lemma each_binding n bindings markup hs w :
  this_own w !! "subdom" = Some (VNode n) ->
  document w !! n = Some (Element [] markup hs) ->
  Forall (fun b => valid_selector b.1.1 = true) bindings ->
  each (fun eventBinding =>
          subdom <- this_get "subdom" ;;
          matches <- querySelectorAll valid_selector select subdom (index eventBinding 0) ;;
          match subdom with
          | VNode n =>
              each (fun domNode =>
                      type <- index eventBinding 1 ;;
                      addEventListener n domNode type eventBinding) matches
          | _ => unmodelled
          end) (binding_value <$> bindings) w
  = Return tt (with_document
      (<[n := Element [] markup
               (hs ++ attached select (structure (document w)) n bindings)]>
         (document w)) w).
Proof.
  revert hs w. induction bindings as [|b bindings IH]; intros hs w Hs Hn Hv.
  - simpl. rewrite app_nil_r, insert_id by done. by destruct w.
  - apply Forall_cons in Hv as [Hb Hv].
    rewrite fmap_cons, each_cons.
    erewrite bind_Return by (by eapply bind_one).
    pose proof (structure_insert_bound (document w) n _
                  (hs ++ attached select (structure (document w)) n [b]) Hn) as Hst.
    cbn [children innerHTML] in Hst.
    erewrite IH; [|done|apply lookup_insert_eq|done].
    unfold with_document. cbn [document this_own this_proto calls].
    by rewrite insert_insert_eq, Hst, (attached_cons _ _ b bindings), <- app_assoc.
Qed.

Lemma each_binding_invalid n before b after markup hs w :
  this_own w !! "subdom" = Some (VNode n) ->
  document w !! n = Some (Element [] markup hs) ->
  Forall (fun b => valid_selector b.1.1 = true) before ->
  valid_selector b.1.1 = false ->
  each (fun eventBinding =>
          subdom <- this_get "subdom" ;;
          matches <- querySelectorAll valid_selector select subdom (index eventBinding 0) ;;
          match subdom with
          | VNode n =>
              each (fun domNode =>
                      type <- index eventBinding 1 ;;
                      addEventListener n domNode type eventBinding) matches
          | _ => unmodelled
          end) (binding_value <$> (before ++ b :: after)) w
  = Throw SyntaxError (with_document
      (<[n := Element [] markup
               (hs ++ attached select (structure (document w)) n before)]>
         (document w)) w).
Proof.
  revert hs w. induction before as [|b0 before IH]; intros hs w Hs Hn Hv Hb.
  - cbn [app]. rewrite fmap_cons, each_cons.
    erewrite bind_Throw; last first.
    { erewrite bind_Return by (by apply this_get_own).
      erewrite bind_Throw; [done|]. by eapply querySelectorAll_invalid. }
    cbn [attached flat_map]. rewrite app_nil_r, insert_id by done. by destruct w.
  - apply Forall_cons in Hv as [Hb0 Hv].
    rewrite <- app_comm_cons, fmap_cons, each_cons.
    erewrite bind_Return by (by eapply bind_one).
    pose proof (structure_insert_bound (document w) n _
                  (hs ++ attached select (structure (document w)) n [b0]) Hn) as Hst.
    cbn [children innerHTML] in Hst.
    erewrite IH; [|done|apply lookup_insert_eq|done|done].
    unfold with_document. cbn [document this_own this_proto calls].
    by rewrite insert_insert_eq, Hst, (attached_cons _ _ b0 before), <- app_assoc.
Qed.

Lemma call_template_compiled raw markup w :
  handlebars raw (this_own w) (this_proto w) = Returns markup ->
  call_template run handlebars (VTemplate raw) w = Return markup w.
Proof. intros H. unfold call_template. by rewrite H. Qed.

Lemma appended_rendered c parent markup d :
  parent ≠ c ->
  alter (with_child c) parent (without_child c <$> <[c := Element [] markup []]> d)
  = rendered c parent markup [] d.
Proof.
  intros Hne. unfold rendered. rewrite fmap_insert. cbn [app].
  apply map_eq. intros q. destruct (decide (q = c)) as [->|Hq].
  - by rewrite lookup_alter_ne, !lookup_insert_eq.
  - rewrite lookup_insert_ne by done.
    destruct (decide (q = parent)) as [->|Hq'].
    + rewrite !lookup_alter_eq. by rewrite lookup_insert_ne.
    + rewrite !lookup_alter_ne by done. by rewrite lookup_insert_ne.
Qed.

Lemma rendered_handlers c parent markup hs d :
  <[c := Element [] markup hs]> (rendered c parent markup [] d)
  = rendered c parent markup hs d.
Proof. unfold rendered. by rewrite insert_insert_eq. Qed.

(** [render] up to the loop over the bindings. *)
Lemma render_prefix w c raw markup parent (rest : js value) :
  this_own w !! "subdom" = Some (VNode c) ->
  this_own w !! "compiledTemplate" = Some (VTemplate raw) ->
  handlebars raw (this_own w) (this_proto w) = Returns markup ->
  is_Some (document w !! c) ->
  is_Some (document w !! parent) ->
  parent ≠ c ->
  (subdom <- this_get "subdom" ;;
   compiledTemplate <- this_get "compiledTemplate" ;;
   markup <- call_template run handlebars compiledTemplate ;;
   set_innerHTML subdom markup ;;;
   subdom <- this_get "subdom" ;;
   appendChild parent subdom ;;;
   rest) w
  = rest (with_document (rendered c parent markup [] (document w)) w).
Proof.
  intros Hs Ht Hm [ec Hc] [ep Hp] Hne.
  erewrite bind_Return by (by apply this_get_own).
  erewrite bind_Return by (by apply this_get_own).
  erewrite bind_Return by (by apply call_template_compiled).
  erewrite bind_Return by (by eapply set_innerHTML_node).
  erewrite bind_Return by (by apply this_get_own).
  erewrite bind_Return; last first.
  { eapply appendChild_leaf; [|apply lookup_insert_eq|done].
    cbn [document with_document]. rewrite lookup_insert_ne by done. done. }
  cbn [document with_document]. by rewrite appended_rendered.
Qed.

(** [render], start to end, on an instance whose fields are as the
    constructor made them. *)
Lemma render_document w c raw markup bindings parent :
  this_own w !! "subdom" = Some (VNode c) ->
  this_own w !! "compiledTemplate" = Some (VTemplate raw) ->
  this_own w !! "eventInterfaces" = Some (VArr (binding_value <$> bindings)) ->
  handlebars raw (this_own w) (this_proto w) = Returns markup ->
  is_Some (document w !! c) ->
  is_Some (document w !! parent) ->
  parent ≠ c ->
  Forall (fun b => valid_selector b.1.1 = true) bindings ->
  render run handlebars valid_selector select parent w
  = Return VThis
      (with_document
         (rendered c parent markup
            (attached select (seen c parent markup (document w)) c bindings)
            (document w)) w).
Proof.
  intros Hs Ht Hi Hm Hc Hp Hne Hv. unfold render.
  erewrite render_prefix by done.
  erewrite bind_Return by (by apply this_get_own).
  erewrite bind_Return; last first.
  { unfold forEach. eapply each_binding; [done| |done].
    apply lookup_insert_eq. }
  unfold ret, with_document. cbn [this_own this_proto document calls app].
  by rewrite rendered_handlers.
Qed.


(** X10. The content is replaced before the container is appended:
    rendering into the container itself throws a HierarchyRequestError with
    the new content already in place, the handlers of the old content gone,
    and every other node as it was. *)
Lemma render_into_container w c raw markup e :
  this_own w !! "subdom" = Some (VNode c) ->
  this_own w !! "compiledTemplate" = Some (VTemplate raw) ->
  handlebars raw (this_own w) (this_proto w) = Returns markup ->
  document w !! c = Some e ->
  render run handlebars valid_selector select c w
  = Throw HierarchyRequestError
      (with_document (<[c := Element [] markup []]> (document w)) w).
Proof.
  intros Hs Ht Hm Hc. unfold render.
  erewrite bind_Return by (by apply this_get_own).
  erewrite bind_Return by (by apply this_get_own).
  erewrite bind_Return by (by apply call_template_compiled).
  erewrite bind_Return by (by eapply set_innerHTML_node).
  erewrite bind_Return by (by apply this_get_own).
  erewrite bind_Throw; [done|].
  unfold appendChild. cbn [document with_document]. rewrite lookup_insert_eq.
  erewrite descends_leaf by (first [apply lookup_insert_eq | done]).
  by rewrite bool_decide_eq_true_2.
Qed.

(** X11. A selector that is not valid stops the loop where it stands:
    [render] throws a SyntaxError, the container has its new content and is
    in the parent, the handlers of the bindings declared before the bad one
    are attached, none of the later ones is. *)
Lemma render_selector_invalid w c raw markup before b after parent :
  this_own w !! "subdom" = Some (VNode c) ->
  this_own w !! "compiledTemplate" = Some (VTemplate raw) ->
  this_own w !! "eventInterfaces"
    = Some (VArr (binding_value <$> (before ++ b :: after))) ->
  handlebars raw (this_own w) (this_proto w) = Returns markup ->
  is_Some (document w !! c) ->
  is_Some (document w !! parent) ->
  parent ≠ c ->
  Forall (fun b => valid_selector b.1.1 = true) before ->
  valid_selector b.1.1 = false ->
  render run handlebars valid_selector select parent w
  = Throw SyntaxError
      (with_document
         (rendered c parent markup
            (attached select (seen c parent markup (document w)) c before)
            (document w)) w).
Proof.
  intros Hs Ht Hi Hm Hc Hp Hne Hv Hb. unfold render.
  erewrite render_prefix by done.
  erewrite bind_Return by (by apply this_get_own).
  erewrite bind_Throw; last first.
  { unfold forEach. eapply each_binding_invalid; [done| |done|done].
    apply lookup_insert_eq. }
  unfold with_document. cbn [this_own this_proto document calls app].
  by rewrite rendered_handlers.
Qed.

End Rendering.

(** ** The document after a render *)

Lemma rendered_container c parent markup hs d :
  rendered c parent markup hs d !! c = Some (Element [] markup hs).
Proof. apply lookup_insert_eq. Qed.

Lemma rendered_parent c parent markup hs d e :
  parent ≠ c -> d !! parent = Some e ->
  rendered c parent markup hs d !! parent
  = Some (Element (filter (fun k => k ≠ c) (children e) ++ [c]) (innerHTML e) (bound e)).
Proof.
  intros Hne He. unfold rendered.
  rewrite lookup_insert_ne, lookup_alter_eq, lookup_fmap, He by done. done.
Qed.

Lemma rendered_other c parent markup hs d q :
  q ≠ c -> q ≠ parent ->
  rendered c parent markup hs d !! q = without_child c <$> d !! q.
Proof.
  intros Hc Hp. unfold rendered.
  by rewrite lookup_insert_ne, lookup_alter_ne, lookup_fmap by done.
Qed.

Lemma rendered_is_Some c parent markup hs d q :
  is_Some (d !! q) -> is_Some (rendered c parent markup hs d !! q).
Proof.
  intros [e He]. unfold rendered.
  destruct (decide (q = c)) as [->|Hc]; [rewrite lookup_insert_eq; eauto|].
  rewrite lookup_insert_ne by done.
  destruct (decide (q = parent)) as [->|Hp].
  - rewrite lookup_alter_eq, lookup_fmap, He. simpl. eauto.
  - rewrite lookup_alter_ne, lookup_fmap, He by done. simpl. eauto.
Qed.

(** After a render the container has one parent, the one just given. *)
Lemma rendered_only_parent c parent markup hs d q e :
  rendered c parent markup hs d !! q = Some e -> c ∈ children e -> q = parent.
Proof.
  intros Hq Hin. destruct (decide (q = parent)) as [|Hp]; [done|]. exfalso.
  destruct (decide (q = c)) as [->|Hc].
  - rewrite rendered_container in Hq. injection Hq as <-. simpl in Hin.
    by apply elem_of_nil in Hin.
  - rewrite rendered_other in Hq by done.
    destruct (d !! q) as [e'|]; [|done]. injection Hq as <-.
    simpl in Hin. apply list_elem_of_filter in Hin as [? _]. done.
Qed.

Lemma fresh_not_child d n e :
  well_formed d -> d !! n = Some e -> fresh (dom d) ∉ children e.
Proof.
  intros Hwf He Hin. destruct (Hwf _ _ _ He Hin) as [e' He'].
  apply (is_fresh (dom d)). apply elem_of_dom. eauto.
Qed.

Lemma filter_not_child (c : node) (l : list node) :
  c ∉ l -> filter (fun k => k ≠ c) l = l.
Proof.
  intros Hc. induction l as [|x l IH]; [done|].
  rewrite filter_cons. destruct (decide (x ≠ c)) as [Hx|Hx].
  - f_equal. apply IH. intros ?. apply Hc. by right.
  - exfalso. apply Hc. apply dec_stable in Hx as ->. left.
Qed.

(** ** Assignments *)

Lemma set_class_instance key v w :
  this_proto w = VClassPrototype ->
  key ≠ "__proto__" ->
  set key v w = Return VThis (with_own (<[key := v]> (this_own w)) w).
Proof.
  intros Hp Hk. unfold set, bind, this_assign, find_this. rewrite Hp.
  destruct (this_own w !! key); [done|]. simpl.
  by destruct (find_class_prototype_writable key Hk) as [->|[? ->]].
Qed.

Lemma assigned_snoc sets kv own :
  assigned (sets ++ [kv]) own = <[kv.1 := kv.2]> (assigned sets own).
Proof. unfold assigned. by rewrite foldl_app. Qed.

Lemma assigned_cons kv sets own :
  assigned (kv :: sets) own = assigned sets (<[kv.1 := kv.2]> own).
Proof. reflexivity. Qed.

(** A key that is not assigned keeps its value. *)
Lemma assigned_untouched sets own k :
  Forall (fun kv => kv.1 ≠ k) sets -> assigned sets own !! k = own !! k.
Proof.
  revert own. induction sets as [|kv sets IH]; intros own H; [done|].
  apply Forall_cons in H as [Hk H]. rewrite assigned_cons, IH by done.
  by rewrite lookup_insert_ne.
Qed.

(** A key that is assigned holds the value assigned last. *)
Lemma assigned_latest sets own k v :
  latest sets k = Some v -> assigned sets own !! k = Some v.
Proof.
  induction sets as [|kv sets IH] using rev_ind; [done|].
  unfold latest. rewrite filter_app, assigned_snoc.
  rewrite filter_cons, filter_nil.
  destruct (decide (kv.1 = k)) as [<-|Hne].
  - rewrite last_snoc. simpl. intros [= <-]. apply lookup_insert_eq.
  - rewrite app_nil_r. intros H. rewrite lookup_insert_ne by done. by apply IH.
Qed.

Lemma sets_class_instance sets w :
  this_proto w = VClassPrototype ->
  Forall (fun kv => kv.1 ≠ "__proto__") sets ->
  sequence ((fun kv => set kv.1 kv.2) <$> sets) w
  = Return tt (with_own (assigned sets (this_own w)) w).
Proof.
  revert w. induction sets as [|kv sets IH]; intros w Hp H.
  - simpl. by destruct w.
  - apply Forall_cons in H as [Hk H]. rewrite fmap_cons. cbn [sequence].
    erewrite bind_Return by (by apply set_class_instance).
    rewrite IH by done. done.
Qed.

(** ** What the specification says about [render] *)

Section Render_spec.

Variable run : string -> value -> list value -> world -> completion value.
Variable handlebars : string -> gmap string value -> value -> completion string.
Variable valid_selector : string -> bool.
Variable select : gmap node (list node * string) -> node -> string -> list nat.

Lemma handler_publishes w b event :
  this_proto w = VClassPrototype ->
  this_own w !! "publish" = None ->
  handler run (binding_value b) event w
  = (publish run b.2 event ;;; ret VUndefined) w.
Proof.
  intros Hp Ho. unfold handler.
  erewrite bind_Return by reflexivity.
  unfold bind at 1 3. unfold invoke, find_this. rewrite Ho, Hp.
  cbn [find]. change (find_class_prototype "publish") with (Data (VMethod "publish")).
  cbn [default lookup]. rewrite decide_True by done.
  by erewrite bind_Return by reflexivity.
Qed.

Lemma invoke_class_method method args body w :
  method ∈ class_method_names ->
  this_proto w = VClassPrototype ->
  this_own w !! method = None ->
  invoke run method args body w = body w.
Proof.
  intros Hin Hp Ho. unfold invoke, find_this. rewrite Ho, Hp.
  cbn [find]. unfold find_class_prototype.
  rewrite decide_True by done. by rewrite decide_True.
Qed.

(** Assignments made through the method [set] of the instance. *)
Lemma invoked_sets_class_instance sets w :
  this_proto w = VClassPrototype ->
  this_own w !! "set" = None ->
  Forall (fun kv => kv.1 ≠ "__proto__" /\ kv.1 ≠ "set") sets ->
  sequence ((fun kv => invoke run "set" [VStr kv.1; kv.2] (set kv.1 kv.2)) <$> sets) w
  = Return tt (with_own (assigned sets (this_own w)) w).
Proof.
  revert w. induction sets as [|kv sets IH]; intros w Hp Hs H.
  - simpl. by destruct w.
  - apply Forall_cons in H as [[Hk Hk'] H]. rewrite fmap_cons. cbn [sequence].
    erewrite bind_Return; last first.
    { rewrite invoke_class_method by (first [done | by apply (bool_decide_unpack _)]).
      by apply set_class_instance. }
    rewrite IH; [done|done| |done].
    cbn [this_own with_own]. by rewrite lookup_insert_ne.
Qed.

(** C1. [render(parent)] evaluates the template against the instance,
    replaces the whole content of the container by the markup (the handlers
    bound before are gone with it), appends the container to [parent],
    attaches, for each binding in declaration order and each element matching
    its selector, a handler for its event name that calls [publish(tag, event)]
    on the instance, and returns the instance; after an assignment and a
    second [render], the content is the markup of the second evaluation
    alone. *)
Theorem render_replaces_appends_binds
    (w : world) (c parent parent' : node) (raw markup markup' : string)
    (bindings : list (string * string * string)) (key : string) (v : value) :
  this_proto w = VClassPrototype ->
  this_own w !! "publish" = None ->
  this_own w !! "subdom" = Some (VNode c) ->
  this_own w !! "compiledTemplate" = Some (VTemplate raw) ->
  this_own w !! "eventInterfaces" = Some (VArr (binding_value <$> bindings)) ->
  is_Some (document w !! c) ->
  is_Some (document w !! parent) ->
  parent ≠ c ->
  handlebars raw (this_own w) (this_proto w) = Returns markup ->
  Forall (fun b => valid_selector b.1.1 = true) bindings ->
  key ∉ reserved_for_render ->
  is_Some (document w !! parent') ->
  parent' ≠ c ->
  handlebars raw (<[key := v]> (this_own w)) (this_proto w) = Returns markup' ->
  exists w1 w2 w3,
    render run handlebars valid_selector select parent w = Return VThis w1
    /\ this_own w1 = this_own w
    /\ calls w1 = calls w
    /\ document w1 !! c
       = Some (Element [] markup
                 (attached select (seen c parent markup (document w)) c bindings))
    /\ children_of w1 parent = filter (fun k => k ≠ c) (children_of w parent) ++ [c]
    /\ (forall b event,
          handler run (binding_value b) event w1
          = (publish run b.2 event ;;; ret VUndefined) w1)
    /\ set key v w1 = Return VThis w2
    /\ render run handlebars valid_selector select parent' w2 = Return VThis w3
    /\ document w3 !! c
       = Some (Element [] markup'
                 (attached select (seen c parent' markup' (document w1)) c bindings)).
Proof.
  intros Hproto Hpub Hs Ht Hi Hc [ep Hp] Hne Hm Hv Hkey Hp' Hne' Hm'.
  assert (Hk : forall k, k ∈ reserved_for_render -> key ≠ k)
    by (intros k Hin ->; done).
  eexists _, _, _. split.
  { by eapply render_document. }
  cbn [this_own calls document with_document].
  split; [done|]. split; [done|]. split; [apply rendered_container|]. split.
  { unfold children_of. cbn [document with_document].
    erewrite rendered_parent by done. by rewrite Hp. }
  split. { intros b event. by apply handler_publishes. }
  split.
  { apply set_class_instance; [done|]. apply Hk. set_solver. }
  split.
  { eapply render_document;
      cbn [this_own this_proto document with_own with_document];
      rewrite ?lookup_insert_ne by (apply Hk; set_solver);
      eauto using rendered_is_Some. }
  cbn [document with_document with_own]. apply rendered_container.
Qed.

(** C5, amended. On a new instance, after any calls of [set] whose keys
    leave alone the fields [subdom], [compiledTemplate], [eventInterfaces],
    the prototype, and the methods [set] and [render] themselves, a call of
    [render(parent)] gives [parent] exactly one more child, the container,
    placed last, whose content is the template evaluated on properties that
    hold, each, the value assigned last. Every call is a method call on the
    instance. *)
Theorem render_after_sets
    (raw : string) (d : gmap node element) (parent : node) (e : element)
    (sets : list (string * value)) (markup : string) :
  well_formed d ->
  d !! parent = Some e ->
  Forall (fun kv => fst kv ∉ reserved_for_set_and_render) sets ->
  handlebars raw (assigned sets (this_own (constructor raw d))) VClassPrototype
    = Returns markup ->
  exists w1 w2 c,
    sequence ((fun kv => invoke run "set" [VStr kv.1; kv.2] (set kv.1 kv.2)) <$> sets)
             (constructor raw d)
    = Return tt w1
    /\ (forall k v, latest sets k = Some v -> this_own w1 !! k = Some v)
    /\ container w1 = Some c
    /\ invoke run "render" [VNode parent]
         (render run handlebars valid_selector select parent) w1
       = Return VThis w2
    /\ (c ∉ children e)
    /\ children_of w2 parent = children e ++ [c]
    /\ markup_of w2 c = Some markup.
Proof.
  intros Hwf Hp Hsets Hm.
  assert (Hk : forall k, k ∈ reserved_for_set_and_render ->
                         Forall (fun kv => kv.1 ≠ k) sets).
  { intros k Hin. eapply Forall_impl; [exact Hsets|].
    intros kv H E. apply H. by rewrite E. }
  assert (Hfresh : parent ≠ fresh (dom d)).
  { intros ->. apply (is_fresh (dom d)). apply elem_of_dom. eauto. }
  eexists _, _, (fresh (dom d)). split.
  { apply invoked_sets_class_instance; [done|done|].
    apply Forall_and. split; apply Hk; by apply (bool_decide_unpack _). }
  cbn [this_own with_own]. split; [intros k v; apply assigned_latest|].
  split.
  { unfold container. cbn [this_own with_own].
    rewrite assigned_untouched by (apply Hk; by apply (bool_decide_unpack _)). done. }
  split.
  { rewrite invoke_class_method; first last.
    - cbn [this_own with_own]. rewrite assigned_untouched by (apply Hk; by apply (bool_decide_unpack _)). done.
    - done.
    - by apply (bool_decide_unpack _).
    - eapply (render_document _ _ _ _ _ (fresh (dom d)) raw markup []);
        cbn [this_own this_proto document with_own constructor];
        rewrite ?assigned_untouched by (apply Hk; by apply (bool_decide_unpack _));
        try done.
      + rewrite lookup_insert_eq. eauto.
      + rewrite lookup_insert_ne by done. eauto. }
  split; [by eapply fresh_not_child|]. split.
  - unfold children_of. cbn [document with_document with_own constructor].
    erewrite rendered_parent; [|done|by rewrite lookup_insert_ne].
    cbn [children]. f_equal. apply filter_not_child. by eapply fresh_not_child.
  - unfold markup_of. cbn [document with_document]. by rewrite rendered_container.
Qed.

(** C6, amended. [render] does not detach the container itself, but
    appending a node moves it: after a render into [p1] and a render into
    another parent [p2], the container is the last child of [p2] and a child
    of no other node, [p1] included. *)
Theorem render_moves_container
    (w : world) (c p1 p2 : node) (raw markup : string)
    (bindings : list (string * string * string)) :
  this_own w !! "subdom" = Some (VNode c) ->
  this_own w !! "compiledTemplate" = Some (VTemplate raw) ->
  this_own w !! "eventInterfaces" = Some (VArr (binding_value <$> bindings)) ->
  is_Some (document w !! c) ->
  is_Some (document w !! p1) ->
  is_Some (document w !! p2) ->
  p1 ≠ c -> p2 ≠ c -> p1 ≠ p2 ->
  handlebars raw (this_own w) (this_proto w) = Returns markup ->
  Forall (fun b => valid_selector b.1.1 = true) bindings ->
  exists w1 w2,
    render run handlebars valid_selector select p1 w = Return VThis w1
    /\ render run handlebars valid_selector select p2 w1 = Return VThis w2
    /\ last (children_of w1 p1) = Some c
    /\ last (children_of w2 p2) = Some c
    /\ (c ∉ children_of w2 p1)
    /\ (forall q, c ∈ children_of w2 q -> q = p2).
Proof.
  intros Hs Ht Hi Hc [e1 H1] [e2 H2] Hn1 Hn2 Hne Hm Hv.
  eexists _, _. split; [by eapply render_document|]. split.
  { eapply render_document; cbn [this_own this_proto document with_document];
      eauto using rendered_is_Some. }
  assert (Honly : forall hs d q, c ∈ children_of
            (with_document (rendered c p2 markup hs d) w) q
            -> q = p2).
  { intros hs d q. unfold children_of. cbn [document with_document].
    destruct (rendered _ _ _ _ _ !! q) as [e|] eqn:E.
    - intros Hin. by eapply rendered_only_parent.
    - intros Hin. by apply elem_of_nil in Hin. }
  split.
  { unfold children_of. cbn [document with_document].
    erewrite rendered_parent by done. cbn [children]. apply last_snoc. }
  split.
  { unfold children_of. cbn [document with_document].
    destruct (rendered_is_Some c p1 markup
                (attached select (seen c p1 markup (document w)) c bindings)
                (document w) p2) as [e2' H2']; [eauto|].
    erewrite rendered_parent by done. cbn [children]. apply last_snoc. }
  split; [|apply Honly].
  intros Hin. apply Honly in Hin. done.
Qed.

End Render_spec.

(** ** What the specification says about [set], [on] and [publish] *)

Section Listener_spec.

Variable run : string -> value -> list value -> world -> completion value.

(** C8, amended. On an instance that has the class prototype, for any key
    other than "__proto__" and any value, [set(key, value)] makes [value] the
    own property [key], changes nothing else, and returns the instance; so
    does the call through the instance while the method has not been
    overwritten. The chained calls [set(k1, v1).set(k2, v2)] with distinct
    such keys, [k1] not naming the method itself, leave both properties in
    place. [set("__proto__", value)] goes to the prototype accessor: on an
    instance with no own property of that name it creates none, whatever the
    value, and either returns the instance or throws a TypeError. *)
Theorem set_assigns_and_chains (w : world) :
  this_proto w = VClassPrototype ->
  (forall key v,
     key ≠ "__proto__" ->
     set key v w = Return VThis (with_own (<[key := v]> (this_own w)) w)
     /\ reads (with_own (<[key := v]> (this_own w)) w) key = Some v
     /\ (this_own w !! "set" = None ->
         invoke run "set" [VStr key; v] (set key v) w
         = Return VThis (with_own (<[key := v]> (this_own w)) w)))
  /\ (forall k1 k2 v1 v2,
        this_own w !! "set" = None ->
        k1 ≠ "__proto__" -> k2 ≠ "__proto__" -> k1 ≠ "set" -> k1 ≠ k2 ->
        exists w',
          (r <- invoke run "set" [VStr k1; v1] (set k1 v1) ;;
           then_call r (invoke run "set" [VStr k2; v2] (set k2 v2))) w
          = Return VThis w'
          /\ this_own w' !! k1 = Some v1
          /\ this_own w' !! k2 = Some v2
          /\ reads w' k1 = Some v1
          /\ reads w' k2 = Some v2)
  /\ (forall v,
        this_own w !! "__proto__" = None ->
        match set "__proto__" v w with
        | Return r w' => r = VThis /\ this_own w' = this_own w
        | Throw x w' => x = TypeError /\ w' = w
        | Unmodelled => False
        end).
Proof.
  intros Hp. split; [|split].
  - intros key v Hk. split; [by apply set_class_instance|]. split.
    + unfold reads, find_this. cbn [this_own with_own]. by rewrite lookup_insert_eq.
    + intros Hs. rewrite invoke_class_method by (first [done | set_solver]).
      by apply set_class_instance.
  - intros k1 k2 v1 v2 Hs H1 H2 H1s Hne.
    eexists. split.
    { erewrite bind_Return; last first.
      { rewrite invoke_class_method by (first [done | set_solver]).
        by apply set_class_instance. }
      cbn [then_call]. rewrite invoke_class_method; first last.
      - cbn [this_own with_own]. by rewrite lookup_insert_ne.
      - done.
      - set_solver.
      - by apply set_class_instance. }
    cbn [this_own with_own]. unfold reads, find_this. cbn [this_own with_own].
    rewrite lookup_insert_eq, lookup_insert_ne, lookup_insert_eq by done. done.
  - intros v Ho. unfold set, bind, this_assign, find_this. rewrite Ho, Hp.
    cbn [find]. change (find_class_prototype "__proto__") with ProtoAccessor.
    destruct (is_object v || is_null v); [destruct (mentions_this v)|]; done.
Qed.

(** C4. When a listener called by [publish(tag, event)] throws, [publish]
    ends with that exception: the listeners registered before it have been
    called, in order, the throwing one has been called, and none of those
    registered after it is called. *)
Theorem publish_propagates_listener_exception
    (w : world) (own : gmap string value) (proto : value) (tag : string)
    (event : value) (pre : list string) (f : string) (post : list value)
    (x : value) :
  this_own w !! "eventListeners" = Some (VObj own proto) ->
  builtin_hasOwnProperty (VObj own proto) ->
  own !! tag = Some (VArr ((VFun <$> pre) ++ VFun f :: post)) ->
  (forall g w', g ∈ pre -> exists v, run g VUndefined [event] w' = Returns v) ->
  run f VUndefined [event] (with_calls (calls w ++ (invocation event <$> pre)) w)
    = Throws x ->
  publish run tag event w
  = Throw (Thrown x)
      (with_calls (calls w ++ (invocation event <$> pre) ++ [invocation event f]) w).
Proof.
  intros Hm Hb Ht Hr Hx. unfold publish.
  erewrite bind_Return by (by eapply ensure_tag_present).
  erewrite bind_Return by (by apply this_get_own).
  erewrite bind_Return by (by apply get_own).
  erewrite bind_Throw; [done|]. by apply each_listener_throws.
Qed.

(** What holds of [on] and [publish] for the tags that do not collide with
    the listener map's own machinery. *)

Lemma ons_plain fs xs w own tag :
  this_own w !! "eventListeners" = Some (VObj own VObjectPrototype) ->
  own !! "hasOwnProperty" = None ->
  tag ≠ "__proto__" ->
  tag ≠ "hasOwnProperty" ->
  own !! tag = Some (VArr xs) \/ (own !! tag = None /\ xs = []) ->
  fs ≠ [] ->
  sequence ((fun f => on run tag (VFun f)) <$> fs) w
  = Return tt (with_own (<["eventListeners" :=
                  VObj (<[tag := VArr (xs ++ (VFun <$> fs))]> own) VObjectPrototype]>
                 (this_own w)) w).
Proof.
  revert xs w own.
  induction fs as [|f fs IH]; intros xs w own Hm Hh Ht Ht' Hx Hne; [done|].
  rewrite fmap_cons. cbn [sequence].
  erewrite bind_Return by (by eapply on_plain).
  destruct fs as [|g fs].
  - done.
  - erewrite IH; [| apply lookup_insert_eq | by rewrite lookup_insert_ne
                  | done | done | left; apply lookup_insert_eq | done ].
    unfold with_own. cbn [this_own this_proto document calls].
    by rewrite !insert_insert_eq, <- app_assoc.
Qed.

Lemma constructor_plain_listeners raw d : plain_listeners (constructor raw d).
Proof. by exists ∅. Qed.

(** [on] under such a tag keeps the listener map plain. *)
Lemma on_keeps_plain_listeners w tag listener :
  plain_listeners w ->
  tag ≠ "__proto__" ->
  tag ≠ "hasOwnProperty" ->
  (listeners_of w tag = None \/ exists xs, listeners_of w tag = Some (VArr xs)) ->
  exists w', on run tag listener w = Return VThis w' /\ plain_listeners w'.
Proof.
  intros (own & Hm & Hh) Ht Ht' Hl. unfold listeners_of in Hl. rewrite Hm in Hl.
  assert (exists xs, own !! tag = Some (VArr xs) \/ (own !! tag = None /\ xs = []))
    as [xs Hx] by (destruct Hl as [Hl|[xs Hl]]; eauto).
  eexists. split; [by eapply on_plain|].
  eexists. cbn [this_own with_own]. split; [apply lookup_insert_eq|].
  by rewrite lookup_insert_ne.
Qed.

(** Listeners registered with [on] under such a tag are called by [publish]
    once per registration, in the order of registration. *)
Lemma publish_after_on (w : world) (tag : string) (fs : list string) (event : value) :
  plain_listeners w ->
  listeners_of w tag = None ->
  tag ≠ "__proto__" ->
  tag ≠ "hasOwnProperty" ->
  fs ≠ [] ->
  (forall f w', f ∈ fs -> exists v, run f VUndefined [event] w' = Returns v) ->
  exists w1 w2,
    sequence ((fun f => on run tag (VFun f)) <$> fs) w = Return tt w1
    /\ publish run tag event w1 = Return VUndefined w2
    /\ calls w2 = calls w ++ (invocation event <$> fs).
Proof.
  intros (own & Hm & Hh) Hl Ht Ht' Hfs Hr.
  unfold listeners_of in Hl. rewrite Hm in Hl.
  eexists _, _. split; [by eapply (ons_plain fs []); eauto|]. split.
  - eapply publish_registered; cbn [this_own with_own].
    + apply lookup_insert_eq.
    + unfold builtin_hasOwnProperty. cbn [find].
      by rewrite lookup_insert_ne, Hh.
    + apply lookup_insert_eq.
    + done.
  - done.
Qed.

(** [publish] under such a tag with nothing registered calls nothing,
    returns, and leaves the tag in the map with an empty array. *)
Lemma publish_unregistered (w : world) (tag : string) (event : value) :
  plain_listeners w ->
  listeners_of w tag = None ->
  tag ≠ "__proto__" ->
  exists w',
    publish run tag event w = Return VUndefined w'
    /\ calls w' = calls w
    /\ listeners_of w' tag = Some (VArr []).
Proof.
  intros (own & Hm & Hh) Hl Ht.
  unfold listeners_of in Hl. rewrite Hm in Hl.
  eexists. split.
  { unfold publish.
    erewrite bind_Return by (by eapply ensure_tag_plain).
    rewrite Hl.
    erewrite bind_Return by (apply this_get_own, lookup_insert_eq).
    erewrite bind_Return by (apply get_own, lookup_insert_eq).
    reflexivity. }
  split; [done|].
  unfold listeners_of. cbn [this_own with_own].
  by rewrite lookup_insert_eq, lookup_insert_eq.
Qed.

End Listener_spec.

(** ** What the methods leave alone *)

Section Settled.

Variable run : string -> value -> list value -> world -> completion value.
Variable handlebars : string -> gmap string value -> value -> completion string.
Variable valid_selector : string -> bool.
Variable select : gmap node (list node * string) -> node -> string -> list nat.

Lemma find_class_prototype_known k : find_class_prototype k ≠ Unknown.
Proof.
  unfold find_class_prototype, find_object_prototype.
  repeat case_decide; discriminate.
Qed.

Lemma settles_impl {A} (o : outcome A) (P Q : world -> Prop) :
  settles o P -> (forall w, P w -> Q w) -> settles o Q.
Proof. destruct o; cbn; auto. Qed.

Lemma only_listeners_refl w : only_listeners w w.
Proof. by repeat split. Qed.

Lemma only_listeners_put m log w :
  only_listeners w (with_calls log (with_own (<["eventListeners" := m]> (this_own w)) w)).
Proof.
  repeat split. intros k Hk. cbn [this_own with_own with_calls].
  by rewrite lookup_insert_ne.
Qed.

(** [set] on an instance of the class: whatever the key and the value, the
    call is covered, and touches the property it names, or the prototype,
    and nothing else. *)
Lemma set_settles key v w :
  this_proto w = VClassPrototype ->
  settles (set key v w)
    (fun w' => document w' = document w /\ calls w' = calls w
               /\ forall k, k ≠ key -> this_own w' !! k = this_own w !! k).
Proof.
  intros Hp. unfold set, bind, this_assign, find_this. rewrite Hp.
  pose proof (find_class_prototype_known key) as Hk.
  assert (Hput : forall k, k ≠ key ->
            <[key := v]> (this_own w) !! k = this_own w !! k)
    by (intros k Hne; by rewrite lookup_insert_ne).
  destruct (this_own w !! key); cbn [find]; [done|].
  destruct (find_class_prototype key); [done| |done|done].
  destruct (is_object v || is_null v); [destruct (mentions_this v)|]; done.
Qed.

(** A call of a followed listener is covered and adds to the call log at
    most. *)
Lemma call_followed f this args w :
  followed f = true ->
  settles (call run f this args w) (fun w' => exists log, w' = with_calls log w).
Proof.
  assert (Hw : w = with_calls (calls w) w) by (by destruct w).
  destruct f; try discriminate; intros _; cbn; eauto.
  destruct (run f this args w); cbn; eauto.
Qed.

Lemma each_listener_settles xs event w :
  Forall (fun x => followed x = true) xs ->
  settles (each (fun listener => call run listener VUndefined [event] ;;; ret tt) xs w)
    (fun w' => exists log, w' = with_calls log w).
Proof.
  intros H. revert w. induction H as [|x xs Hx H IH]; intros w.
  - cbn. exists (calls w). by destruct w.
  - rewrite each_cons. unfold bind at 1. unfold bind at 1.
    pose proof (call_followed x VUndefined [event] w Hx) as Hc.
    destruct (call run x VUndefined [event] w) as [r w1|e w1|]; [|done|done].
    destruct Hc as [log ->]. cbn [ret].
    specialize (IH (with_calls log w)).
    destruct (each _ xs (with_calls log w)) as [r' w2|e w2|]; [| |done];
      destruct IH as [log' ->]; exists log'; apply with_calls_twice.
Qed.

(** The guard on a listener map as the class keeps it: a plain object of
    listener arrays. It throws when the map has an entry "hasOwnProperty";
    otherwise it returns with an array to be found under the tag. *)
Lemma ensure_tag_listener_arrays own tag w :
  this_own w !! "eventListeners" = Some (VObj own VObjectPrototype) ->
  listener_arrays own ->
  ensure_tag run tag w = Throw TypeError w
  \/ exists own' proto',
       ensure_tag run tag w
       = Return tt (with_own (<["eventListeners" := VObj own' proto']> (this_own w)) w)
       /\ listener_arrays own'
       /\ (is_Some (own' !! tag)
           \/ (own' !! tag = None /\ tag = "__proto__" /\ proto' = VArr [])).
Proof.
  intros Hm Ha. unfold ensure_tag.
  erewrite bind_Return by (by apply this_get_own).
  destruct (own !! "hasOwnProperty") as [h|] eqn:Eh.
  - left. destruct (Ha _ _ Eh) as (xs & -> & _).
    erewrite bind_Throw; [done|]. unfold hasOwnProperty. cbn [find]. by rewrite Eh.
  - right. erewrite bind_Return by (by apply hasOwnProperty_plain).
    destruct (own !! tag) as [arr|] eqn:Et.
    + rewrite bool_decide_eq_true_2 by eauto.
      exists own, VObjectPrototype. split; [|split; [done|left; eauto]].
      rewrite insert_id by done. unfold ret. by rewrite with_own_same.
    + rewrite bool_decide_eq_false_2 by (intros [? ?]; done).
      erewrite bind_Return by (by apply this_get_own).
      destruct (decide (tag = "__proto__")) as [->|Hne].
      * exists own, (VArr []).
        erewrite bind_Return; last first.
        { unfold assign. cbn [find]. rewrite Et. reflexivity. }
        split; [reflexivity|]. split; [done|]. by right.
      * exists (<[tag := VArr []]> own), VObjectPrototype.
        erewrite bind_Return by (by apply assign_plain).
        split; [reflexivity|]. split.
        -- intros t v. destruct (decide (t = tag)) as [->|Ht].
           ++ rewrite lookup_insert_eq. intros [= <-]. eauto.
           ++ rewrite lookup_insert_ne by done. apply Ha.
        -- left. rewrite lookup_insert_eq. eauto.
Qed.

(** [on] on such a map is covered, whatever the tag and the listener, and
    changes the listener map at most. *)
Lemma on_settles own tag listener w :
  this_own w !! "eventListeners" = Some (VObj own VObjectPrototype) ->
  listener_arrays own ->
  settles (on run tag listener w)
    (fun w' => only_listeners w w' /\ calls w' = calls w).
Proof.
  intros Hm Ha. unfold on.
  destruct (ensure_tag_listener_arrays own tag w Hm Ha)
    as [He|(own' & proto' & He & Ha' & Ht)].
  - erewrite bind_Throw by done. split; [apply only_listeners_refl|done].
  - erewrite bind_Return by done.
    erewrite bind_Return by (apply this_get_own, lookup_insert_eq).
    assert (exists m, push_at (VObj own' proto') tag listener
                        (with_own (<["eventListeners" := VObj own' proto']> (this_own w)) w)
                      = Return m
                          (with_own (<["eventListeners" := VObj own' proto']> (this_own w)) w))
      as [m Hpush].
    { destruct Ht as [[arr Harr]|(Hn & -> & ->)].
      - destruct (Ha' _ _ Harr) as (xs & -> & _).
        eexists. unfold push_at. rewrite Harr. reflexivity.
      - eexists. unfold push_at. rewrite Hn. reflexivity. }
    erewrite bind_Return by exact Hpush.
    cbn. split; [|done]. repeat split. intros k Hk.
    cbn [this_own with_own]. by rewrite !lookup_insert_ne.
Qed.

(** [publish] on such a map is covered, whatever the tag and the event, and
    changes the listener map and the call log at most. *)
Lemma publish_settles own tag event w :
  this_own w !! "eventListeners" = Some (VObj own VObjectPrototype) ->
  listener_arrays own ->
  settles (publish run tag event w) (only_listeners w).
Proof.
  intros Hm Ha. unfold publish.
  destruct (ensure_tag_listener_arrays own tag w Hm Ha)
    as [He|(own' & proto' & He & Ha' & Ht)].
  - erewrite bind_Throw by done. apply only_listeners_refl.
  - erewrite bind_Return by done.
    erewrite bind_Return by (apply this_get_own, lookup_insert_eq).
    set (w1 := with_own (<["eventListeners" := VObj own' proto']> (this_own w)) w).
    assert (exists xs, get (VObj own' proto') tag w1 = Return (VArr xs) w1
                       /\ Forall (fun x => followed x = true) xs)
      as (xs & Hget & Hxs).
    { destruct Ht as [[arr Harr]|(Hn & -> & ->)].
      - destruct (Ha' _ _ Harr) as (xs & -> & Hxs).
        exists xs. split; [by apply get_own|done].
      - exists []. split; [|done]. unfold get. cbn [find]. rewrite Hn. reflexivity. }
    erewrite bind_Return by exact Hget.
    unfold forEach, bind.
    pose proof (each_listener_settles xs event w1 Hxs) as He1.
    destruct (each _ xs w1) as [r w2|e w2|]; [| |done];
      destruct He1 as [log ->]; apply only_listeners_put.
Qed.



End Settled.

(** ** The binding list, the result of [publish], and the tags that collide *)

Section Class_spec.

Variable run : string -> value -> list value -> world -> completion value.
Variable handlebars : string -> gmap string value -> value -> completion string.
Variable valid_selector : string -> bool.
Variable select : gmap node (list node * string) -> node -> string -> list nat.


Lemma publish_first_call own tag event w :
  this_own w !! "eventListeners" = Some (VObj own VObjectPrototype) ->
  own !! "hasOwnProperty" = None ->
  own !! tag = None ->
  exists w', publish run tag event w = Return VUndefined w' /\ calls w' = calls w.
Proof.
  intros Hm Hh Ht. destruct (decide (tag = "__proto__")) as [->|Hne].
  - exists (with_own (<["eventListeners" := VObj own (VArr [])]> (this_own w)) w).
    split; [|reflexivity]. unfold publish.
    erewrite bind_Return; last first.
    { unfold ensure_tag.
      erewrite bind_Return by (by apply this_get_own).
      erewrite bind_Return by (by apply hasOwnProperty_plain).
      rewrite Ht, bool_decide_eq_false_2 by (by intros [? ?]).
      erewrite bind_Return by (by apply this_get_own).
      erewrite bind_Return; last first.
      { unfold assign. cbn [find]. rewrite Ht. reflexivity. }
      reflexivity. }
    erewrite bind_Return by (apply this_get_own, lookup_insert_eq).
    erewrite bind_Return; last first.
    { unfold get. cbn [find]. rewrite Ht. reflexivity. }
    reflexivity.
  - destruct (publish_unregistered run w tag event) as (w' & H1 & H2 & _);
      [by exists own| by unfold listeners_of; rewrite Hm | done | eauto].
Qed.

Lemma bind_result {A B} (c : js A) (k : A -> js B) (P : B -> Prop) w :
  (forall a w', match k a w' with Return v _ => P v | _ => True end) ->
  match bind c k w with Return v _ => P v | _ => True end.
Proof. intros H. unfold bind. destruct (c w); try done. apply H. Qed.

(** C10. [publish(tag, event)] never hands back the instance: whenever it
    returns, for any tag and event and in any state, the value is undefined;
    on a new instance it does return, for every tag and event; and a call
    chained on its result throws a TypeError. *)
Theorem publish_returns_undefined
    (w : world) (raw : string) (d : gmap node element) (tag : string)
    (event : value) (next : js value) :
  match publish run tag event w with
  | Return v _ => v = VUndefined
  | _ => True
  end
  /\ (exists w', publish run tag event (constructor raw d) = Return VUndefined w'
        /\ (r <- publish run tag event ;; then_call r next) (constructor raw d)
           = Throw TypeError w').
Proof.
  split.
  - unfold publish. repeat (apply bind_result; intros ? ?). done.
  - destruct (publish_first_call ∅ tag event (constructor raw d))
      as (w' & Hp & _); try done.
    exists w'. split; [done|]. by rewrite (bind_Return _ _ _ _ _ Hp).
Qed.

(** C2, at the tag "__proto__". On a new instance, [on("__proto__", f1)]
    and [on("__proto__", f2)] return and [publish("__proto__", event)]
    returns, but no listener has been called: each call replaced the
    prototype of the listener map by a new empty array. *)
Theorem publish_skips_listeners_under_proto
    (raw : string) (d : gmap node element) (f1 f2 : string) (event : value) :
  sequence [on run "__proto__" (VFun f1); on run "__proto__" (VFun f2);
            publish run "__proto__" event] (constructor raw d)
  = Return tt
      (with_own (<["eventListeners" := VObj ∅ (VArr [])]>
                   (this_own (constructor raw d)))
                (constructor raw d)).
Proof.
  unfold constructor. generalize (fresh (dom d)). intros n.
  generalize (<[n := Element [] EmptyString []]> d). intros d'.
  vm_compute. reflexivity.
Qed.

(** C3, at the tag "hasOwnProperty". On a new instance, with no listener
    registered at all, the first [publish("hasOwnProperty", event)] returns
    and the second throws a TypeError: the first stored an empty array under
    the name the guard calls as a function. *)
Theorem publish_twice_under_hasOwnProperty_throws
    (raw : string) (d : gmap node element) (event : value) :
  sequence [publish run "hasOwnProperty" event;
            publish run "hasOwnProperty" event] (constructor raw d)
  = Throw TypeError
      (with_own (<["eventListeners" :=
                    VObj (<["hasOwnProperty" := VArr []]> ∅) VObjectPrototype]>
                   (this_own (constructor raw d)))
                (constructor raw d)).
Proof.
  unfold constructor. generalize (fresh (dom d)). intros n.
  generalize (<[n := Element [] EmptyString []]> d). intros d'.
  vm_compute. reflexivity.
Qed.

(** C7, at the tag "hasOwnProperty". On a new instance, the first
    [on("hasOwnProperty", f)] returns and the second one throws a TypeError;
    the listener is registered once and has not been called. *)
Theorem on_twice_under_hasOwnProperty_throws
    (raw : string) (d : gmap node element) (f : string) (event : value) :
  sequence [on run "hasOwnProperty" (VFun f); on run "hasOwnProperty" (VFun f);
            publish run "hasOwnProperty" event] (constructor raw d)
  = Throw TypeError
      (with_own (<["eventListeners" :=
                    VObj (<["hasOwnProperty" := VArr [VFun f]]> ∅) VObjectPrototype]>
                   (this_own (constructor raw d)))
                (constructor raw d)).
Proof.
  unfold constructor. generalize (fresh (dom d)). intros n.
  generalize (<[n := Element [] EmptyString []]> d). intros d'.
  vm_compute. reflexivity.
Qed.

End Class_spec.

(** ** Closed instances *)

Lemma render_replaces_appends_binds_witness :
  exists w1 w3,
    render Sample.run Sample.handlebars Sample.valid_selector Sample.select
           0 Scenario.configured
      = Return VThis w1
    /\ document w1 !! 2
       = Some (Element [] "Hello "
                 [(0, "click"%string, binding_value Scenario.item_binding)])
    /\ children_of w1 0 = [2]
    /\ document w3 !! 2
       = Some (Element [] "Hello Alice"
                 [(0, "click"%string, binding_value Scenario.item_binding)]).
Proof.
  destruct (render_replaces_appends_binds
              Sample.run Sample.handlebars Sample.valid_selector Sample.select
              Scenario.configured 2 0 1 "Hello " "Hello " "Hello Alice"
              [Scenario.item_binding] "name" (VStr "Alice"))
    as (w1 & w2 & w3 & H1 & _ & _ & H2 & H3 & _ & _ & _ & H4).
  - reflexivity.
  - reflexivity.
  - vm_compute. reflexivity.
  - reflexivity.
  - reflexivity.
  - eexists. vm_compute. reflexivity.
  - eexists. vm_compute. reflexivity.
  - discriminate.
  - reflexivity.
  - repeat constructor.
  - by apply (bool_decide_unpack _).
  - eexists. vm_compute. reflexivity.
  - discriminate.
  - reflexivity.
  - exists w1, w3. repeat split; assumption.
Defined.

Lemma publish_propagates_listener_exception_witness :
  publish Sample.run "t" (VStr "click") Scenario.subscribed
  = Throw (Thrown (VStr "boom"))
      (with_calls [("f", [VStr "click"]); ("boom", [VStr "click"])]
                  Scenario.subscribed).
Proof.
  apply (publish_propagates_listener_exception Sample.run Scenario.subscribed
           Scenario.three_listeners VObjectPrototype "t" (VStr "click")
           ["f"] "boom" [VFun "g"] (VStr "boom")).
  - reflexivity.
  - reflexivity.
  - reflexivity.
  - intros g w' Hg. apply list_elem_of_singleton in Hg as ->. by eexists.
  - reflexivity.
Defined.

Lemma render_after_sets_witness :
  exists w2,
    (sequence [invoke Sample.run "set" [VStr "name"; VStr "Bob"]
                 (set "name" (VStr "Bob"));
               invoke Sample.run "set" [VStr "name"; VStr "Alice"]
                 (set "name" (VStr "Alice"))] ;;;
     invoke Sample.run "render" [VNode 0]
       (render Sample.run Sample.handlebars Sample.valid_selector Sample.select 0))
      (constructor "Hello " Sample.page)
    = Return VThis w2
    /\ children_of w2 0 = [2]
    /\ markup_of w2 2 = Some "Hello Alice"%string.
Proof.
  destruct (render_after_sets Sample.run Sample.handlebars Sample.valid_selector Sample.select
              "Hello " Sample.page 0 (Element [] EmptyString [])
              [("name", VStr "Bob"); ("name", VStr "Alice")] "Hello Alice")
    as (w1 & w2 & c & H1 & _ & Hc & H2 & _ & H3 & H4).
  - intros n e k Hn Hk.
    assert (children e = []) as Hnil; [|rewrite Hnil in Hk; by apply elem_of_nil in Hk].
    unfold Sample.page in Hn.
    destruct (decide (n = 1)) as [->|]; [rewrite lookup_insert_eq in Hn; by injection Hn as <-|].
    rewrite lookup_insert_ne in Hn by done.
    destruct (decide (n = 0)) as [->|]; [rewrite lookup_insert_eq in Hn; by injection Hn as <-|].
    by rewrite lookup_insert_ne in Hn.
  - reflexivity.
  - repeat constructor; by apply (bool_decide_unpack _).
  - reflexivity.
  - exists w2.
    change (fun kv : string * value => invoke Sample.run "set" [VStr kv.1; kv.2]
                                         (set kv.1 kv.2) <$> _)
      with [invoke Sample.run "set" [VStr "name"; VStr "Bob"] (set "name" (VStr "Bob"));
            invoke Sample.run "set" [VStr "name"; VStr "Alice"] (set "name" (VStr "Alice"))]
      in H1.
    split; [by rewrite (bind_Return _ _ _ _ _ H1)|].
    vm_compute in H1. injection H1 as <-.
    vm_compute in Hc. injection Hc as <-.
    split; assumption.
Defined.

Lemma render_moves_container_witness :
  exists w2,
    sequence [render Sample.run Sample.handlebars Sample.valid_selector Sample.select 0;
              render Sample.run Sample.handlebars Sample.valid_selector Sample.select 1]
             Scenario.configured
    = Return tt w2
    /\ last (children_of w2 1) = Some 2
    /\ (2 ∉ children_of w2 0).
Proof.
  destruct (render_moves_container Sample.run Sample.handlebars Sample.valid_selector Sample.select
              Scenario.configured 2 0 1 "Hello " "Hello " [Scenario.item_binding])
    as (w1 & w2 & H1 & H2 & _ & H3 & H4 & _).
  - vm_compute. reflexivity.
  - reflexivity.
  - reflexivity.
  - eexists. vm_compute. reflexivity.
  - eexists. vm_compute. reflexivity.
  - eexists. vm_compute. reflexivity.
  - discriminate.
  - discriminate.
  - discriminate.
  - reflexivity.
  - repeat constructor.
  - exists w2. split; [|split; assumption].
    cbn [sequence].
    rewrite (bind_Return _ _ _ _ _ H1), (bind_Return _ _ _ _ _ H2). reflexivity.
Defined.

Lemma set_assigns_and_chains_witness :
  set "set" (VNum 5) Sample.fresh_instance
  = Return VThis (with_own (<["set" := VNum 5]> (this_own Sample.fresh_instance))
                           Sample.fresh_instance)
  /\ (exists w',
        (r <- invoke Sample.run "set" [VStr "x"; VNum 1] (set "x" (VNum 1)) ;;
         then_call r (invoke Sample.run "set" [VStr "y"; VNum 2] (set "y" (VNum 2))))
          Sample.fresh_instance
        = Return VThis w'
        /\ reads w' "x" = Some (VNum 1)
        /\ reads w' "y" = Some (VNum 2))
  /\ match set "__proto__" (VArr []) Sample.fresh_instance with
     | Return r w' => r = VThis /\ this_own w' = this_own Sample.fresh_instance
     | Throw x w' => x = TypeError /\ w' = Sample.fresh_instance
     | Unmodelled => False
     end.
Proof.
  destruct (set_assigns_and_chains Sample.run Sample.fresh_instance)
    as (Hset & Hchain & Hproto).
  - reflexivity.
  - split; [|split].
    + destruct (Hset "set" (VNum 5)) as (H & _); [discriminate|exact H].
    + destruct (Hchain "x" "y" (VNum 1) (VNum 2)) as (w' & H & _ & _ & Hx & Hy).
      * reflexivity.
      * discriminate.
      * discriminate.
      * discriminate.
      * discriminate.
      * exists w'. repeat split; assumption.
    + apply (Hproto (VArr [])). reflexivity.
Defined.


(** C5, as stated, fails: after [set("subdom", 1)] on a new instance,
    [render(parent)] throws a TypeError and [parent] has no new child. *)
Lemma render_after_set_subdom_throws :
  exists w,
    (set "subdom" (VNum 1) ;;;
     render Sample.run Sample.handlebars Sample.valid_selector Sample.select 0)
      Sample.fresh_instance
    = Throw TypeError w
    /\ children_of w 0 = [].
Proof. eexists. split; vm_compute; reflexivity. Qed.

(** C6, as stated, fails: after a render into node 0 and a render into
    node 1, the container (node 2) is not a child of every parent it was
    given: it has left node 0. *)
Lemma container_leaves_first_parent :
  exists w,
    sequence [render Sample.run Sample.handlebars Sample.valid_selector Sample.select 0;
              render Sample.run Sample.handlebars Sample.valid_selector Sample.select 1]
             Sample.fresh_instance
    = Return tt w
    /\ container w = Some 2
    /\ children_of w 0 = []
    /\ children_of w 1 = [2]
    /\ ~ (forall parent, parent ∈ [0; 1] -> 2 ∈ children_of w parent).
Proof.
  eexists. split; [vm_compute; reflexivity|].
  split; [vm_compute; reflexivity|].
  split; [vm_compute; reflexivity|].
  split; [vm_compute; reflexivity|].
  intros H. specialize (H 0 ltac:(left)).
  vm_compute in H. by apply elem_of_nil in H.
Qed.


(** C8, as stated, fails at the key "__proto__": [set("__proto__", 1)]
    returns the instance and assigns nothing; no own property of that name
    exists afterwards and reading it still yields the class prototype. *)
Lemma set_proto_assigns_nothing :
  set "__proto__" (VNum 1) Sample.fresh_instance
    = Return VThis Sample.fresh_instance
  /\ this_own Sample.fresh_instance !! "__proto__" = None
  /\ reads Sample.fresh_instance "__proto__" = Some VClassPrototype
  /\ reads Sample.fresh_instance "__proto__" ≠ Some (VNum 1).
Proof. repeat split; try (vm_compute; reflexivity). discriminate. Qed.

(** The scenario of the specification: template, one assignment, one
    binding, one listener; after the render a click on the matching element
    calls the listener once, with the event. *)
Example click_reaches_listener :
  exists w,
    sequence [set "name" (VStr "Alice");
              on Sample.run "itemClicked" (VFun "fn");
              render Sample.run Sample.handlebars Sample.valid_selector Sample.select 0;
              (dispatch Sample.run 2 0 "click" (VStr "the click") ;;; ret VUndefined)]
             Scenario.configured
    = Return tt w
    /\ calls w = [("fn"%string, [VStr "the click"])]
    /\ markup_of w 2 = Some "Hello Alice"%string
    /\ children_of w 0 = [2].
Proof. eexists. repeat split; vm_compute; reflexivity. Qed.

(** * Further properties of the class *)

(** ** The constructor *)

Lemma sample_page_well_formed : well_formed Sample.page.
Proof.
  intros n e k Hn Hk.
  assert (children e = []) as Hnil; [|rewrite Hnil in Hk; by apply elem_of_nil in Hk].
  unfold Sample.page in Hn.
  destruct (decide (n = 1)) as [->|];
    [rewrite lookup_insert_eq in Hn; by injection Hn as <-|].
  rewrite lookup_insert_ne in Hn by done.
  destruct (decide (n = 0)) as [->|];
    [rewrite lookup_insert_eq in Hn; by injection Hn as <-|].
  by rewrite lookup_insert_ne in Hn.
Qed.


(** X1. A new instance owns a container that is a new node of the document:
    not a node before, empty, a child of no node; the nodes that were there
    are as they were and the document stays well formed; the binding list is
    empty, no tag has listeners, nothing has been called. *)
Theorem constructor_detached_container (raw : string) (d : gmap node element) :
  well_formed d ->
  let w := constructor raw d in
  let c := fresh (dom d) in
  container w = Some c
  /\ d !! c = None
  /\ document w !! c = Some (Element [] EmptyString [])
  /\ (forall q e, document w !! q = Some e -> c ∉ children e)
  /\ (forall q, q ≠ c -> document w !! q = d !! q)
  /\ well_formed (document w)
  /\ this_own w !! "eventInterfaces" = Some (VArr [])
  /\ (forall tag, listeners_of w tag = None)
  /\ plain_listeners w
  /\ calls w = [].
Proof.
  intros Hwf w c.
  assert (Hc : d !! c = None).
  { apply not_elem_of_dom. apply is_fresh. }
  assert (Hno : forall q e, document w !! q = Some e -> c ∉ children e).
  { intros q e Hq. cbn [w constructor document] in Hq.
    destruct (decide (q = c)) as [->|Hne].
    - rewrite lookup_insert_eq in Hq. injection Hq as <-. apply not_elem_of_nil.
    - rewrite lookup_insert_ne in Hq by done. by eapply fresh_not_child. }
  repeat split; try done.
  - apply lookup_insert_eq.
  - intros q Hq. cbn [w constructor document]. by rewrite lookup_insert_ne.
  - intros n e k Hn Hk. cbn [w constructor document] in *.
    destruct (decide (k = c)) as [->|Hk']; [rewrite lookup_insert_eq; eauto|].
    rewrite lookup_insert_ne by done.
    destruct (decide (n = c)) as [->|Hn'].
    + rewrite lookup_insert_eq in Hn. injection Hn as <-. by apply elem_of_nil in Hk.
    + rewrite lookup_insert_ne in Hn by done. by eapply Hwf.
  - apply constructor_plain_listeners.
Qed.

Lemma constructor_detached_container_witness :
  container (constructor "Hello " Sample.page) = Some 2
  /\ Sample.page !! 2 = None
  /\ well_formed (document (constructor "Hello " Sample.page)).
Proof.
  destruct (constructor_detached_container "Hello " Sample.page
              sample_page_well_formed)
    as (H1 & H2 & _ & _ & _ & H3 & _).
  repeat split; assumption.
Defined.

(** ** Registration and publication *)

Section Registrations.

Variable run : string -> value -> list value -> world -> completion value.

Lemma listener_table_snoc regs r own :
  listener_table (regs ++ [r]) own
  = <[r.1 := VArr (match listener_table regs own !! r.1 with
                   | Some (VArr xs) => xs
                   | _ => []
                   end ++ [VFun r.2])]> (listener_table regs own).
Proof. unfold listener_table. by rewrite foldl_app. Qed.

Lemma listener_table_arrays regs own :
  arrays_only own -> arrays_only (listener_table regs own).
Proof.
  intros Ha. induction regs as [|r regs IH] using rev_ind; [done|].
  rewrite listener_table_snoc. intros t v.
  destruct (decide (t = r.1)) as [->|Hne].
  - rewrite lookup_insert_eq. intros [= <-]. eauto.
  - rewrite lookup_insert_ne by done. apply IH.
Qed.

Lemma listener_table_untouched regs own t :
  Forall (fun r => r.1 ≠ t) regs -> listener_table regs own !! t = own !! t.
Proof.
  intros H. induction regs as [|r regs IH] using rev_ind; [done|].
  apply Forall_app in H as [H Hr]. apply Forall_inv in Hr.
  rewrite listener_table_snoc, lookup_insert_ne by done. by apply IH.
Qed.

(** Under a tag, the table holds the functions registered under it, in the
    order of registration, and nothing when there is none. *)
Lemma listener_table_lookup regs tag :
  listener_table regs ∅ !! tag
  = match registered_under tag regs with
    | [] => None
    | fs => Some (VArr (VFun <$> fs))
    end.
Proof.
  induction regs as [|r regs IH] using rev_ind; [done|].
  rewrite listener_table_snoc. unfold registered_under in *.
  rewrite filter_app, filter_cons, filter_nil.
  destruct (decide (r.1 = tag)) as [<-|Hne].
  - rewrite lookup_insert_eq, IH, fmap_app. cbn [fmap list_fmap].
    destruct (snd <$> filter _ regs) as [|f fs]; [done|].
    cbn [app]. by rewrite fmap_app.
  - by rewrite lookup_insert_ne, app_nil_r.
Qed.

(** A run of registrations on a plain listener map. *)
Lemma ons_table regs own w :
  this_own w !! "eventListeners" = Some (VObj own VObjectPrototype) ->
  own !! "hasOwnProperty" = None ->
  arrays_only own ->
  Forall (fun r => r.1 ≠ "__proto__" /\ r.1 ≠ "hasOwnProperty") regs ->
  sequence ((fun r => on run r.1 (VFun r.2)) <$> regs) w
  = Return tt (with_own (<["eventListeners" :=
                  VObj (listener_table regs own) VObjectPrototype]> (this_own w)) w).
Proof.
  revert own w. induction regs as [|r regs IH]; intros own w Hm Hh Ha Hr.
  - cbn. rewrite insert_id by done. by destruct w.
  - apply Forall_cons in Hr as [[Hp Ho] Hr]. rewrite fmap_cons. cbn [sequence].
    assert (exists xs, (own !! r.1 = Some (VArr xs) \/ (own !! r.1 = None /\ xs = []))
                       /\ match own !! r.1 with Some (VArr ys) => ys | _ => [] end = xs)
      as (xs & Hx & Hxs).
    { destruct (own !! r.1) as [v|] eqn:E.
      - destruct (Ha _ _ E) as [xs ->]. exists xs. eauto.
      - exists []. eauto. }
    erewrite bind_Return by (by eapply on_plain).
    erewrite IH.
    + unfold with_own. cbn [this_own this_proto document calls].
      rewrite insert_insert_eq. unfold listener_table at 2. cbn [foldl].
      by rewrite Hxs.
    + apply lookup_insert_eq.
    + by rewrite lookup_insert_ne.
    + intros t v. destruct (decide (t = r.1)) as [->|Hne].
      * rewrite lookup_insert_eq. intros [= <-]. eauto.
      * rewrite lookup_insert_ne by done. apply Ha.
    + done.
Qed.

(** X2. Registrations under any mix of tags other than "__proto__" and
    "hasOwnProperty", on an empty listener map, of functions that return
    when called and do not themselves act on the instance or on the
    document: all the [on] calls return, and [publish(tag, event)] then
    calls exactly the functions registered under [tag], once per
    registration and in the order of registration, each with [event] as the
    one argument, and returns undefined. [publish] itself calls no function
    registered under another tag and does nothing to the document. *)
Theorem publish_calls_the_tag_listeners
    (w : world) (regs : list (string * string)) (tag : string) (event : value) :
  this_own w !! "eventListeners" = Some (VObj ∅ VObjectPrototype) ->
  Forall (fun r => r.1 ≠ "__proto__" /\ r.1 ≠ "hasOwnProperty") regs ->
  tag ≠ "__proto__" ->
  (forall f w', f ∈ registered_under tag regs ->
                exists v, run f VUndefined [event] w' = Returns v) ->
  exists w1 w2,
    sequence ((fun r => on run r.1 (VFun r.2)) <$> regs) w = Return tt w1
    /\ publish run tag event w1 = Return VUndefined w2
    /\ calls w2 = calls w ++ (invocation event <$> registered_under tag regs)
    /\ document w2 = document w.
Proof.
  intros Hm Hr Ht Hrun.
  set (w1 := with_own (<["eventListeners" :=
                VObj (listener_table regs ∅) VObjectPrototype]> (this_own w)) w).
  assert (Hons : sequence ((fun r => on run r.1 (VFun r.2)) <$> regs) w = Return tt w1)
    by (by apply ons_table).
  assert (Hh : listener_table regs ∅ !! "hasOwnProperty" = None).
  { rewrite listener_table_untouched; [done|].
    eapply Forall_impl; [exact Hr|]. by intros r [_ ?]. }
  pose proof (listener_table_lookup regs tag) as Hl.
  destruct (registered_under tag regs) as [|f fs] eqn:E.
  - exists w1, (with_own (<["eventListeners" :=
                  VObj (<[tag := VArr []]> (listener_table regs ∅)) VObjectPrototype]>
                 (this_own w1)) w1).
    split; [done|]. split.
    { unfold publish.
      erewrite bind_Return by (eapply ensure_tag_plain; [apply lookup_insert_eq|done|done]).
      rewrite Hl.
      erewrite bind_Return by (apply this_get_own, lookup_insert_eq).
      erewrite bind_Return by (apply get_own, lookup_insert_eq).
      reflexivity. }
    split; [cbn; by rewrite app_nil_r|done].
  - exists w1, (with_calls (calls w1 ++ (invocation event <$> f :: fs)) w1).
    repeat split; try done.
    eapply publish_registered.
    + apply lookup_insert_eq.
    + unfold builtin_hasOwnProperty. cbn [find]. by rewrite Hh.
    + exact Hl.
    + exact Hrun.
Qed.

End Registrations.

Lemma publish_calls_the_tag_listeners_witness :
  exists w2,
    (sequence [on Sample.run "a" (VFun "f"); on Sample.run "b" (VFun "boom");
               on Sample.run "a" (VFun "h")] ;;;
     publish Sample.run "a" (VStr "click")) Sample.fresh_instance
    = Return VUndefined w2
    /\ calls w2 = [("f"%string, [VStr "click"]); ("h"%string, [VStr "click"])].
Proof.
  destruct (publish_calls_the_tag_listeners Sample.run Sample.fresh_instance
              [("a", "f"); ("b", "boom"); ("a", "h")] "a" (VStr "click"))
    as (w1 & w2 & H1 & H2 & H3 & _).
  - reflexivity.
  - repeat constructor; discriminate.
  - discriminate.
  - intros f w' Hf. exists VUndefined. unfold Sample.run.
    rewrite decide_False; [done|]. intros ->.
    vm_compute in Hf. by repeat (apply elem_of_cons in Hf as [Hf|Hf]; [discriminate|]);
      apply elem_of_nil in Hf.
  - exists w2. split; [|exact H3].
    by rewrite (bind_Return _ _ _ _ _ H1).
Defined.

(** ** Listeners that are not functions, and the tag "hasOwnProperty" *)

Section Bad_listeners.

Variable run : string -> value -> list value -> world -> completion value.

Lemma call_not_a_function v this args w :
  not_a_function v = true -> call run v this args w = Throw TypeError w.
Proof. by destruct v. Qed.

Lemma each_listener_not_a_function pre v post event w :
  (forall g w', g ∈ pre -> exists r, run g VUndefined [event] w' = Returns r) ->
  not_a_function v = true ->
  each (fun listener => call run listener VUndefined [event] ;;; ret tt)
       ((VFun <$> pre) ++ v :: post) w
  = Throw TypeError (with_calls (calls w ++ (invocation event <$> pre)) w).
Proof.
  revert w. induction pre as [|g pre IH]; intros w Hr Hv.
  - cbn [fmap list_fmap app each].
    erewrite bind_Throw; last first.
    { erewrite bind_Throw; [done|]. by apply call_not_a_function. }
    rewrite app_nil_r. by destruct w.
  - rewrite fmap_cons. cbn [app each].
    destruct (Hr g w) as [r Hg]; [left|].
    erewrite bind_Return; last first.
    { erewrite bind_Return; [done|]. unfold call. by rewrite Hg. }
    rewrite IH; [|intros h w' Hh; apply Hr; by right|done].
    cbn. by rewrite <- app_assoc.
Qed.

(** X3. [on] takes any value as a listener: registering a value that is
    not a function returns the instance like any registration, whether the
    tag has listeners already or [on] creates its array. The next [publish]
    under the tag calls the listeners registered before it, in order, throws
    a TypeError on reaching it, and calls none of the listeners registered
    after it. The listeners before it are functions of the caller that
    return. *)
Theorem publish_throws_at_a_listener_that_is_no_function
    (w : world) (own : gmap string value) (tag : string) (event v : value)
    (old pre : list string) (post : list value) :
  this_own w !! "eventListeners" = Some (VObj own VObjectPrototype) ->
  own !! "hasOwnProperty" = None ->
  tag ≠ "__proto__" ->
  tag ≠ "hasOwnProperty" ->
  own !! tag = Some (VArr (VFun <$> old)) \/ (own !! tag = None /\ old = []) ->
  not_a_function v = true ->
  (forall g w', g ∈ old ++ pre -> exists r, run g VUndefined [event] w' = Returns r) ->
  exists w1 w2,
    sequence (on run tag <$> ((VFun <$> pre) ++ v :: post)) w = Return tt w1
    /\ listeners_of w1 tag = Some (VArr ((VFun <$> old ++ pre) ++ v :: post))
    /\ publish run tag event w1 = Throw TypeError w2
    /\ calls w2 = calls w ++ (invocation event <$> old ++ pre).
Proof.
  intros Hm Hh Ht Ht' Hx Hv Hr.
  assert (Hons : forall post xs w,
    this_own w !! "eventListeners"
      = Some (VObj (<[tag := VArr xs]> own) VObjectPrototype) ->
    sequence (on run tag <$> post) w
    = Return tt (with_own (<["eventListeners" :=
                    VObj (<[tag := VArr (xs ++ post)]> own) VObjectPrototype]>
                   (this_own w)) w)).
  { clear -Hh Ht Ht'. intros post. induction post as [|l post IH]; intros xs w Hm.
    - cbn. rewrite app_nil_r, insert_id by done. by destruct w.
    - rewrite fmap_cons. cbn [sequence].
      erewrite bind_Return; last first.
      { eapply on_plain; [done| |done|left].
        - by rewrite lookup_insert_ne.
        - apply lookup_insert_eq. }
      rewrite insert_insert_eq.
      erewrite IH by apply lookup_insert_eq.
      unfold with_own. cbn [this_own this_proto document calls].
      by rewrite insert_insert_eq, <- app_assoc. }
  assert (Hx' : own !! tag = Some (VArr (VFun <$> old))
                \/ (own !! tag = None /\ VFun <$> old = []))
    by (destruct Hx as [Hx|[Hx ->]]; auto).
  assert (Hall : forall l, l ≠ [] ->
    sequence (on run tag <$> l) w
    = Return tt (with_own (<["eventListeners" :=
                    VObj (<[tag := VArr ((VFun <$> old) ++ l)]> own) VObjectPrototype]>
                   (this_own w)) w)).
  { intros [|x l] Hl; [done|]. rewrite fmap_cons. cbn [sequence].
    erewrite bind_Return by (by eapply on_plain).
    erewrite Hons by apply lookup_insert_eq.
    unfold with_own. cbn [this_own this_proto document calls].
    by rewrite !insert_insert_eq, <- app_assoc. }
  eexists _, _. split.
  { apply Hall. by destruct pre. }
  rewrite app_assoc, <- fmap_app.
  split.
  { unfold listeners_of. cbn [this_own with_own]. rewrite lookup_insert_eq.
    apply lookup_insert_eq. }
  split.
  - unfold publish.
    erewrite bind_Return; last first.
    { eapply ensure_tag_present; [apply lookup_insert_eq| |apply lookup_insert_eq].
      unfold builtin_hasOwnProperty. cbn [find].
      by rewrite lookup_insert_ne, Hh. }
    erewrite bind_Return by (apply this_get_own, lookup_insert_eq).
    erewrite bind_Return by (apply get_own, lookup_insert_eq).
    erewrite bind_Throw; [reflexivity|].
    by apply each_listener_not_a_function.
  - reflexivity.
Qed.

(** X4. One [publish] under the tag "hasOwnProperty" disables the
    instance's events: on a listener map as the constructor made it, with
    nothing under that name, the call returns and calls nothing, and from
    then on every [on] and every [publish], under any tag, throws a TypeError
    and changes nothing. *)
Theorem hasOwnProperty_tag_disables_events
    (w : world) (event : value) :
  plain_listeners w ->
  listeners_of w "hasOwnProperty" = None ->
  exists w1,
    publish run "hasOwnProperty" event w = Return VUndefined w1
    /\ calls w1 = calls w
    /\ forall tag listener event',
         on run tag listener w1 = Throw TypeError w1
         /\ publish run tag event' w1 = Throw TypeError w1.
Proof.
  intros (own & Hm & Hh) _.
  destruct (publish_unregistered run w "hasOwnProperty" event)
    as (w1 & Hp & Hc & Hl); [by exists own| |done|].
  { unfold listeners_of. by rewrite Hm. }
  exists w1. split; [done|]. split; [done|].
  unfold listeners_of in Hl.
  destruct (this_own w1 !! "eventListeners") as [m|] eqn:Em; [|done].
  destruct m as [| | | | | | | | | | | | | |own1 proto1]; try done.
  assert (Hg : forall tag, ensure_tag run tag w1 = Throw TypeError w1).
  { intros tag. unfold ensure_tag.
    erewrite bind_Return by (by apply this_get_own).
    erewrite bind_Throw; [done|].
    unfold hasOwnProperty. cbn [find]. rewrite Hl. reflexivity. }
  intros tag listener event'. split.
  - unfold on. by erewrite bind_Throw.
  - unfold publish. by erewrite bind_Throw.
Qed.

End Bad_listeners.

Lemma publish_throws_at_a_listener_that_is_no_function_witness :
  exists w2,
    (sequence [on Sample.run "t" (VFun "f"); on Sample.run "t" (VNum 5);
               on Sample.run "t" (VFun "g")] ;;;
     publish Sample.run "t" (VStr "click")) Sample.fresh_instance
    = Throw TypeError w2
    /\ calls w2 = [("f"%string, [VStr "click"])].
Proof.
  destruct (publish_throws_at_a_listener_that_is_no_function Sample.run
              Sample.fresh_instance ∅ "t" (VStr "click") (VNum 5)
              [] ["f"] [VFun "g"])
    as (w1 & w2 & H1 & _ & H2 & H3).
  - reflexivity.
  - reflexivity.
  - discriminate.
  - discriminate.
  - right. split; reflexivity.
  - reflexivity.
  - intros g w' Hg. apply list_elem_of_singleton in Hg as ->. by eexists.
  - exists w2. split; [|exact H3].
    erewrite bind_Return by exact H1. exact H2.
Defined.

Lemma hasOwnProperty_tag_disables_events_witness :
  exists w1,
    publish Sample.run "hasOwnProperty" (VStr "click") Sample.fresh_instance
      = Return VUndefined w1
    /\ on Sample.run "t" (VFun "f") w1 = Throw TypeError w1.
Proof.
  destruct (hasOwnProperty_tag_disables_events Sample.run Sample.fresh_instance
              (VStr "click"))
    as (w1 & H1 & _ & H2).
  - apply constructor_plain_listeners.
  - reflexivity.
  - exists w1. split; [exact H1|]. apply (H2 "t" (VFun "f") VNull).
Defined.

(** ** Assignments that reach the prototype or the methods *)

Section Assignments.

Variable run : string -> value -> list value -> world -> completion value.

Lemma find_this_proto_accessor w :
  this_proto w = VClassPrototype ->
  this_own w !! "__proto__" = None ->
  find_this "__proto__" w = ProtoAccessor.
Proof. intros Hp Ho. unfold find_this. by rewrite Ho, Hp. Qed.


(** X5. [set] with the name of a method hides the method behind the value:
    the call returns the instance, and the next call of that method through
    the instance throws a TypeError when the value is not a function, and
    runs the caller's function, with the instance as [this] and the same
    arguments, when it is one. *)
Theorem set_shadows_a_method
    (w : world) (method : string) (v : value) (f : string) :
  this_proto w = VClassPrototype ->
  method ∈ class_method_names ->
  not_a_function v = true ->
  (set method v w = Return VThis (with_own (<[method := v]> (this_own w)) w)
   /\ forall args body,
        invoke run method args body (with_own (<[method := v]> (this_own w)) w)
        = Throw TypeError (with_own (<[method := v]> (this_own w)) w))
  /\ (set method (VFun f) w
        = Return VThis (with_own (<[method := VFun f]> (this_own w)) w)
      /\ forall args body,
           invoke run method args body
             (with_own (<[method := VFun f]> (this_own w)) w)
           = call run (VFun f) VThis args
               (with_own (<[method := VFun f]> (this_own w)) w)).
Proof.
  intros Hp Hm Hv.
  assert (Hne : method ≠ "__proto__").
  { intros ->. revert Hm. by apply (bool_decide_unpack _). }
  split; (split; [by apply set_class_instance|]); intros args body;
    unfold invoke, find_this; cbn [this_own with_own];
    rewrite lookup_insert_eq.
  - destruct v; try done.
  - done.
Qed.


(** X7. [set("__proto__", null)] returns the instance and cuts it off from
    the class: the own properties stay, but every method that is not an own
    property is gone, so a call of it through the instance throws a
    TypeError; a later [set("__proto__", value)] then creates an ordinary own
    property. *)
Theorem set_proto_null_removes_the_methods (w : world) (v : value) :
  this_proto w = VClassPrototype ->
  this_own w !! "__proto__" = None ->
  set "__proto__" VNull w = Return VThis (with_proto VNull w)
  /\ this_own (with_proto VNull w) = this_own w
  /\ (forall method args body,
        this_own w !! method = None ->
        invoke run method args body (with_proto VNull w)
        = Throw TypeError (with_proto VNull w))
  /\ set "__proto__" v (with_proto VNull w)
     = Return VThis (with_own (<["__proto__" := v]> (this_own w)) (with_proto VNull w)).
Proof.
  intros Hp Ho. split; [|split; [done|split]].
  - unfold set, bind, this_assign. by rewrite find_this_proto_accessor.
  - intros method args body Hm. unfold invoke, find_this.
    cbn [this_own this_proto with_proto]. by rewrite Hm.
  - unfold set, bind, this_assign, find_this.
    cbn [this_own this_proto with_proto]. by rewrite Ho.
Qed.


End Assignments.

Lemma set_shadows_a_method_witness :
  invoke Sample.run "publish" [VStr "t"; VNull] (publish Sample.run "t" VNull)
    (with_own (<["publish" := VNum 1]> (this_own Sample.fresh_instance))
       Sample.fresh_instance)
  = Throw TypeError
      (with_own (<["publish" := VNum 1]> (this_own Sample.fresh_instance))
         Sample.fresh_instance).
Proof.
  destruct (set_shadows_a_method Sample.run Sample.fresh_instance "publish"
              (VNum 1) "f") as ((_ & H) & _).
  - reflexivity.
  - by apply (bool_decide_unpack _).
  - reflexivity.
  - apply H.
Defined.


Lemma set_proto_null_removes_the_methods_witness :
  invoke Sample.run "render" [VNode 0]
    (render Sample.run Sample.handlebars Sample.valid_selector Sample.select 0)
    (with_proto VNull Sample.fresh_instance)
  = Throw TypeError (with_proto VNull Sample.fresh_instance).
Proof.
  destruct (set_proto_null_removes_the_methods Sample.run Sample.fresh_instance
              VUndefined) as (_ & _ & H & _).
  - reflexivity.
  - reflexivity.
  - apply H. reflexivity.
Defined.


(** ** More on [render] *)

Section More_rendering.

Variable run : string -> value -> list value -> world -> completion value.
Variable handlebars : string -> gmap string value -> value -> completion string.
Variable valid_selector : string -> bool.
Variable select : gmap node (list node * string) -> node -> string -> list nat.





(** X13. When the binding list holds a primitive, undefined or null in
    place of an array, [render] throws a TypeError only after it has replaced
    the content of the container and appended it to [parent]: both changes
    stay, no handler is attached. *)
Theorem render_without_a_binding_array
    (w : world) (c parent : node) (raw markup : string) (eventInterfaces : value) :
  this_own w !! "subdom" = Some (VNode c) ->
  this_own w !! "compiledTemplate" = Some (VTemplate raw) ->
  this_own w !! "eventInterfaces" = Some eventInterfaces ->
  is_object eventInterfaces = false ->
  handlebars raw (this_own w) (this_proto w) = Returns markup ->
  is_Some (document w !! c) ->
  is_Some (document w !! parent) ->
  parent ≠ c ->
  render run handlebars valid_selector select parent w
  = Throw TypeError (with_document (rendered c parent markup [] (document w)) w).
Proof.
  intros Hs Ht Hi Hp Hm Hc Hpar Hne. unfold render.
  erewrite render_prefix by done.
  erewrite bind_Return by (by apply this_get_own).
  erewrite bind_Throw; [done|]. by destruct eventInterfaces.
Qed.




(** X17. [set], [on] and [publish] themselves never touch the document. On
    an instance of the class whose listener map is a plain object of its own
    holding arrays of listeners (functions of the caller, or values that are
    no functions), the three are covered for every key, tag, value, listener
    and event, and end, whether they return or throw, with the nodes, their
    children, markup and handlers as they were. What a listener does on its
    own account when [publish] calls it is not part of this. *)
Theorem set_on_publish_leave_the_document
    (w : world) (own : gmap string value) (key tag : string)
    (v listener event : value) :
  this_proto w = VClassPrototype ->
  this_own w !! "eventListeners" = Some (VObj own VObjectPrototype) ->
  listener_arrays own ->
  settles (set key v w) (fun w' => document w' = document w)
  /\ settles (on run tag listener w) (fun w' => document w' = document w)
  /\ settles (publish run tag event w) (fun w' => document w' = document w).
Proof.
  intros Hp Hm Ha. split; [|split].
  - eapply settles_impl; [by apply set_settles|]. by intros w' (Hd & _).
  - eapply settles_impl; [by eapply on_settles|]. by intros w' ((_ & Hd & _) & _).
  - eapply settles_impl; [by eapply publish_settles|]. by intros w' (_ & Hd & _).
Qed.

End More_rendering.

(** ** The handlers and the events *)

Section Events.

Variable run : string -> value -> list value -> world -> completion value.

Lemma handler_with_tag w eventBinding tag name event :
  this_proto w = VClassPrototype ->
  this_own w !! "publish" = None ->
  index eventBinding 2 w = Return tag w ->
  to_string tag w = Return name w ->
  handler run eventBinding event w
  = (publish run name event ;;; ret VUndefined) w.
Proof.
  intros Hp Ho Hi Hs. unfold handler.
  erewrite bind_Return by exact Hi.
  unfold bind at 1 3. unfold invoke, find_this. rewrite Ho, Hp.
  cbn [find]. change (find_class_prototype "publish") with (Data (VMethod "publish")).
  cbn [default lookup]. rewrite decide_True by done.
  by erewrite bind_Return by exact Hs.
Qed.

(** X18. The handler reads the tag at index 2 of its binding when the event
    fires: for a binding with fewer than three entries, whatever they are,
    the handler publishes the event under the tag "undefined". *)
Theorem handler_of_a_short_binding
    (w : world) (entries : list value) (event : value) :
  this_proto w = VClassPrototype ->
  this_own w !! "publish" = None ->
  length entries <= 2 ->
  handler run (VArr entries) event w
  = (publish run "undefined" event ;;; ret VUndefined) w.
Proof.
  intros Hp Ho Hlen.
  eapply handler_with_tag; try done.
  unfold index, ret. by rewrite lookup_ge_None_2.
Qed.


End Events.

(** ** Closed instances of the further properties *)


Lemma render_into_container_witness :
  render Sample.run Sample.handlebars Sample.valid_selector Sample.select
         2 Sample.fresh_instance
  = Throw HierarchyRequestError
      (with_document (<[2 := Element [] "Hello " []]> (document Sample.fresh_instance))
                     Sample.fresh_instance).
Proof.
  apply (render_into_container Sample.run Sample.handlebars
           Sample.valid_selector Sample.select Sample.fresh_instance 2 "Hello "
           "Hello " (Element [] EmptyString []));
    reflexivity.
Defined.

Lemma render_selector_invalid_witness :
  exists w,
    render Sample.run Sample.handlebars Sample.valid_selector Sample.select
           0 Wired.misconfigured
    = Throw SyntaxError w
    /\ children_of w 0 = [2]
    /\ document w !! 2
       = Some (Element [] "Hello "
                 [(0, "click"%string, binding_value Scenario.item_binding)]).
Proof.
  eexists. split.
  - apply (render_selector_invalid Sample.run Sample.handlebars
             Sample.valid_selector Sample.select Wired.misconfigured 2 "Hello "
             "Hello " [Scenario.item_binding] Wired.broken_binding
             [Scenario.item_binding] 0).
    + reflexivity.
    + reflexivity.
    + reflexivity.
    + reflexivity.
    + eexists. vm_compute. reflexivity.
    + eexists. vm_compute. reflexivity.
    + discriminate.
    + repeat constructor.
    + reflexivity.
  - split; vm_compute; reflexivity.
Defined.


Lemma render_without_a_binding_array_witness :
  exists w,
    render Sample.run Sample.handlebars Sample.valid_selector Sample.select 0
      (with_own (<["eventInterfaces" := VNum 5]> (this_own Sample.fresh_instance))
         Sample.fresh_instance)
    = Throw TypeError w
    /\ children_of w 0 = [2]
    /\ markup_of w 2 = Some "Hello "%string.
Proof.
  eexists. split.
  - apply (render_without_a_binding_array Sample.run Sample.handlebars
             Sample.valid_selector Sample.select
             (with_own (<["eventInterfaces" := VNum 5]>
                          (this_own Sample.fresh_instance)) Sample.fresh_instance)
             2 0 "Hello " "Hello " (VNum 5)).
    + reflexivity.
    + reflexivity.
    + reflexivity.
    + reflexivity.
    + reflexivity.
    + eexists. vm_compute. reflexivity.
    + eexists. vm_compute. reflexivity.
    + discriminate.
  - split; vm_compute; reflexivity.
Defined.




Lemma set_on_publish_leave_the_document_witness :
  settles (set "name" (VStr "Alice") Wired.clicked)
    (fun w' => document w' = document Wired.clicked)
  /\ settles (on Sample.run "itemClicked" (VNum 5) Wired.clicked)
       (fun w' => document w' = document Wired.clicked)
  /\ settles (publish Sample.run "itemClicked" (VStr "click") Wired.clicked)
       (fun w' => document w' = document Wired.clicked).
Proof.
  apply (set_on_publish_leave_the_document Sample.run Wired.clicked
           Wired.listeners "name" "itemClicked" (VStr "Alice") (VNum 5)
           (VStr "click")).
  - reflexivity.
  - reflexivity.
  - intros t v Ht. unfold Wired.listeners in Ht.
    destruct (decide (t = "itemClicked")) as [->|Hne].
    + rewrite lookup_insert_eq in Ht. injection Ht as <-.
      eexists. split; [reflexivity|]. by repeat constructor.
    + by rewrite lookup_insert_ne in Ht.
Defined.

Lemma handler_of_a_short_binding_witness :
  handler Sample.run (VArr [VStr ".item"; VStr "click"]) (VStr "the click")
    Sample.fresh_instance
  = (publish Sample.run "undefined" (VStr "the click") ;;; ret VUndefined)
      Sample.fresh_instance.
Proof.
  apply (handler_of_a_short_binding Sample.run Sample.fresh_instance
           [VStr ".item"; VStr "click"] (VStr "the click")).
  - reflexivity.
  - reflexivity.
  - cbn. lia.
Defined.

